(** * Call-analysis front-ends: report rendering and upload workflow

    A shallow embedding of the two browser front-ends of the repository,

    - the DOM-building front-end bound to [analyze-form] (module
      [AnalyzeForm]), and
    - the template-string front-end [web/frontend/app.js] bound to
      [upload-form] (module [UploadForm]),

    together with the part of the JavaScript platform they rely on (module
    [JS]: values decoded from JSON, coercions, number formatting, and
    [JSON.stringify] / [JSON.parse]).

    Conventions of the embedding.

    - A JavaScript string is a Rocq [string]; non-ASCII text is carried as its
      UTF-8 bytes.  Every character the sources inspect (the five HTML
      metacharacters, the JSON escapes) is ASCII, so byte-wise processing
      coincides with the code-unit-wise processing of the engine.
    - A JavaScript number is represented by a decimal [mantissa * 10 ^ exponent]:
      the decimal the engine prints for the binary64 value it holds, which
      is also the one a JSON text carries.  Comparison, [Math.min] and
      [Math.max] are exact on it.  Three things are idealised, and the
      statements that depend on them are restricted accordingly
      ([Shows.ordinary], [Shows.portable]).  [JSON.parse] keeps a literal as
      it is written, where the engine rounds it to binary64: a literal of
      more than 15 significant digits, or outside the range of the normal
      binary64 values, is held differently by the engine (rounded, zero, or
      [Infinity]).  [toFixed] rounds the decimal, where the engine rounds
      the binary64 value: at a decimal tie ([0.615] to two places) the
      engine may round down, and above [2 ^ 53] the digits differ.  There
      is one zero.  [NaN] and the infinities are not values of the model;
      the one place a [NaN] can be produced ([Number(...)] in
      [fmtPercent]) is modelled with an [option].
    - A thrown exception is a value [Throw e]; the wording of engine-made
      messages follows V8 and is quoted only in the worked examples.
    - An [async] handler is split at its [await]: the part that runs when the
      event is dispatched, and the continuation that runs when the awaited
      promise settles.  The analyze handlers await twice in a row ([fetch],
      then [response.json()]) and do not touch the page in between, so the
      two are taken as one settlement carrying both outcomes. *)

From Stdlib Require Import String Ascii List ZArith QArith Qpower Qminmax Qabs Lia Bool.
Import ListNotations.
Set Warnings "-register-all".
Local Open Scope string_scope.
Local Open Scope Z_scope.

(* ===================================================================== *)
(** * The JavaScript platform *)
(* ===================================================================== *)

Module JS.

(** ** Exceptions *)

Record Error := mkError { name : string; message : string }.

Inductive result (A : Type) : Type :=
| Ok (a : A)
| Throw (e : Error).
Arguments Ok {A} a.
Arguments Throw {A} e.

Definition bind {A B} (c : result A) (k : A -> result B) : result B :=
  match c with
  | Ok a => k a
  | Throw e => Throw e
  end.

Notation "x <- c ;; k" := (bind c (fun x => k))
  (at level 61, c at next level, right associativity).

Definition TypeError (msg : string) : Error := mkError "TypeError" msg.
Definition SyntaxError (msg : string) : Error := mkError "SyntaxError" msg.

(** [new Error(msg)] with a string argument. *)
Definition new_Error (msg : string) : Error := mkError "Error" msg.

(** ** Strings *)

(** The double quote, U+0022. *)
Definition dquote : ascii := Ascii.ascii_of_nat 34.
Definition dq : string := String dquote "".
(** Line feed, U+000A. *)
Definition LF : string := String (Ascii.ascii_of_nat 10) "".

(** [s.replace(/c/g, by)] for a one-character pattern [c]. *)
Fixpoint replace (c : ascii) (by_ : string) (s : string) : string :=
  match s with
  | "" => ""
  | String a rest =>
      if Ascii.eqb a c then by_ ++ replace c by_ rest
      else String a (replace c by_ rest)
  end.

(** Occurrence of a character in a string. *)
Fixpoint occurs (c : ascii) (s : string) : bool :=
  match s with
  | "" => false
  | String a rest => Ascii.eqb a c || occurs c rest
  end.

Definition is_empty (s : string) : bool :=
  match s with
  | "" => true
  | _ => false
  end.

Fixpoint repeat_string (s : string) (n : nat) : string :=
  match n with
  | O => ""
  | S n' => s ++ repeat_string s n'
  end.

(** [String.prototype.toUpperCase] on the ASCII letters; other bytes are
    kept.  The engine maps the letters beyond ASCII as well, so this is
    [toUpperCase] on texts of ASCII characters only ([Shows.ascii_only]),
    as language tags are. *)
Definition upper_ascii (a : ascii) : ascii :=
  let n := nat_of_ascii a in
  if (Nat.leb 97 n && Nat.leb n 122)%bool then ascii_of_nat (n - 32) else a.

Fixpoint toUpperCase (s : string) : string :=
  match s with
  | "" => ""
  | String a rest => String (upper_ascii a) (toUpperCase rest)
  end.

(** ** Numbers *)

(** The number [mantissa * 10 ^ exponent]. *)
Record number := mkNumber { mantissa : Z; exponent : Z }.

Definition num_of_Z (z : Z) : number := mkNumber z 0.
Definition zero : number := num_of_Z 0.
Definition one : number := num_of_Z 1.

(** The rational a number stands for. *)
Definition num_to_Q (n : number) : Q :=
  (inject_Z (mantissa n) * inject_Z 10 ^ exponent n)%Q.

(** Both numbers brought to the smaller of the two exponents. *)
Definition align (a b : number) : Z * Z :=
  let e := Z.min (exponent a) (exponent b) in
  (mantissa a * 10 ^ (exponent a - e), mantissa b * 10 ^ (exponent b - e)).

Definition num_ltb (a b : number) : bool :=
  let (x, y) := align a b in x <? y.

(** [Math.min] and [Math.max] on two numbers. *)
Definition Math_min (a b : number) : number := if num_ltb b a then b else a.
Definition Math_max (a b : number) : number := if num_ltb a b then b else a.

(** *** Decimal digits *)

Fixpoint to_digits_aux (fuel : nat) (n : Z) (acc : list Z) : list Z :=
  match fuel with
  | O => acc
  | S fuel' =>
      if n <? 10 then n :: acc
      else to_digits_aux fuel' (n / 10) (n mod 10 :: acc)
  end.

(** The decimal digits of [n >= 0], most significant first; [[0]] for 0. *)
Definition to_digits (n : Z) : list Z :=
  to_digits_aux (S (Z.to_nat (Z.log2 n))) n [].

Definition of_digits (ds : list Z) : Z :=
  fold_left (fun a d => a * 10 + d) ds 0.

Definition digit_char (d : Z) : ascii := ascii_of_nat (48 + Z.to_nat d).

Fixpoint digits_string (ds : list Z) : string :=
  match ds with
  | [] => ""
  | d :: rest => String (digit_char d) (digits_string rest)
  end.

Definition zeros (n : Z) : string := repeat_string "0" (Z.to_nat n).

Fixpoint strip_leading_zeros (ds : list Z) : list Z :=
  match ds with
  | 0 :: rest => strip_leading_zeros rest
  | _ => ds
  end.

Definition strip_trailing_zeros (ds : list Z) : list Z :=
  rev (strip_leading_zeros (rev ds)).

(** *** [Number::toString] (radix 10)

    With [s] the digits of the value without trailing zeros, [k] their count
    and [n] the position of the decimal point ([value = 0.s * 10 ^ n]), the
    four layouts of ECMA-262: integer, fraction with an integer part,
    fraction below one, and exponent notation. *)
Definition Number_toString (x : number) : string :=
  let m := mantissa x in
  if m =? 0 then "0"
  else
    let sign := if m <? 0 then "-" else "" in
    let all := to_digits (Z.abs m) in
    let s := strip_trailing_zeros all in
    let k := Z.of_nat (List.length s) in
    let n := Z.of_nat (List.length all) + exponent x in
    sign ++
    (if (k <=? n) && (n <=? 21) then
       digits_string s ++ zeros (n - k)
     else if (0 <? n) && (n <=? 21) then
       digits_string (firstn (Z.to_nat n) s) ++ "." ++
       digits_string (skipn (Z.to_nat n) s)
     else if (-6 <? n) && (n <=? 0) then
       "0." ++ zeros (- n) ++ digits_string s
     else
       let e := n - 1 in
       let es := (if e <? 0 then "-" else "+") ++
                 digits_string (to_digits (Z.abs e)) in
       match s with
       | [] => ""
       | [d] => digits_string [d] ++ "e" ++ es
       | d :: rest => digits_string [d] ++ "." ++ digits_string rest ++ "e" ++ es
       end).

(** *** [Number.prototype.toFixed]

    [n] is the integer nearest to [|x| * 10 ^ f], the larger one on a tie.
    The engine takes [x] to be the binary64 value, which at a decimal tie
    lies a little to one side: there it may choose the smaller integer
    ([Shows.written] allows either). *)
Definition round_scaled (x : number) (f : Z) : Z :=
  let a := Z.abs (mantissa x) in
  let sh := exponent x + f in
  if 0 <=? sh then a * 10 ^ sh
  else let d := 10 ^ (- sh) in (2 * a + d) / (2 * d).

Definition toFixed (x : number) (f : nat) : string :=
  let sign := if mantissa x <? 0 then "-" else "" in
  let ax := mkNumber (Z.abs (mantissa x)) (exponent x) in
  if negb (num_ltb ax (mkNumber 1 21)) then Number_toString x
  else
    let n := round_scaled x (Z.of_nat f) in
    let m := to_digits n in
    let m :=
      match f with
      | O => digits_string m
      | _ =>
          let k := List.length m in
          let m := if Nat.leb k f then (repeat 0 (f + 1 - k) ++ m)%list else m in
          let k := List.length m in
          digits_string (firstn (k - f) m) ++ "." ++ digits_string (skipn (k - f) m)
      end in
    sign ++ m.

(** ** Numeric literals *)

Definition is_digit (a : ascii) : bool :=
  let n := nat_of_ascii a in (Nat.leb 48 n && Nat.leb n 57)%bool.

Definition digit_val (a : ascii) : Z := Z.of_nat (nat_of_ascii a - 48).

(** The longest run of decimal digits at the front of a string. *)
Fixpoint span_digits (s : string) : list Z * string :=
  match s with
  | "" => ([], "")
  | String a rest =>
      if is_digit a then
        let (ds, r) := span_digits rest in (digit_val a :: ds, r)
      else ([], s)
  end.

(** The number written [int.frac e exp], in lowest terms: no trailing zero
    in the mantissa, and exponent 0 for zero. *)
Definition make_number (neg : bool) (int_ frac : list Z) (e : Z) : number :=
  let ds := strip_leading_zeros (int_ ++ frac)%list in
  let s := strip_trailing_zeros ds in
  let m := of_digits s in
  if m =? 0 then zero
  else mkNumber (if neg then - m else m)
                (e - Z.of_nat (List.length frac)
                 + (Z.of_nat (List.length ds) - Z.of_nat (List.length s))).

(** The rest of a string after a given first character. *)
Definition after (c : ascii) (s : string) : option string :=
  match s with
  | String a rest => if Ascii.eqb a c then Some rest else None
  | "" => None
  end.

(** An optional sign: whether it is a minus, and what follows it. *)
Definition read_sign (plus : bool) (s : string) : bool * string :=
  match after "-" s with
  | Some r => (true, r)
  | None =>
      match after "+" s with
      | Some r => if plus then (false, r) else (false, s)
      | None => (false, s)
      end
  end.

(** An exponent part [e], [e+] or [e-] followed by digits. *)
Definition read_exponent (s : string) : option (Z * string) :=
  match s with
  | String c rest =>
      if (Ascii.eqb c "e" || Ascii.eqb c "E")%bool then
        let (neg, rest) := read_sign true rest in
        match span_digits rest with
        | ([], _) => None
        | (ds, r) => Some (if neg then - of_digits ds else of_digits ds, r)
        end
      else Some (0, s)
  | "" => Some (0, "")
  end.

Definition is_space (a : ascii) : bool :=
  let n := nat_of_ascii a in
  (Nat.eqb n 32 || Nat.eqb n 9 || Nat.eqb n 10 || Nat.eqb n 13
   || Nat.eqb n 11 || Nat.eqb n 12)%bool.

Fixpoint ltrim (s : string) : string :=
  match s with
  | String a rest => if is_space a then ltrim rest else s
  | "" => ""
  end.

Fixpoint rtrim (s : string) : string :=
  match s with
  | "" => ""
  | String a rest =>
      let r := rtrim rest in
      if (is_space a && is_empty r)%bool then "" else String a r
  end.

(** [StringToNumber] on decimal literals; [None] is [NaN].  The empty string
    is 0.  The radix-prefixed integer literals and [Infinity] are not
    covered and read as [NaN] here. *)
Definition StringToNumber (s : string) : option number :=
  let s := rtrim (ltrim s) in
  if is_empty s then Some zero
  else
    let (neg, s) := read_sign true s in
    let (int_, s) := span_digits s in
    let (frac, s) :=
      match after "." s with
      | Some r => span_digits r
      | None => ([], s)
      end in
    match int_, frac with
    | [], [] => None
    | _, _ =>
        match read_exponent s with
        | Some (e, "") => Some (make_number neg int_ frac e)
        | _ => None
        end
    end.

(** A number in lowest terms, the form in which [make_number] builds
    them. *)
Definition canonical (n : number) : bool :=
  if mantissa n =? 0 then exponent n =? 0
  else negb (mantissa n mod 10 =? 0).

(** ** Values

    What [JSON.parse] can build, and [undefined] (an absent property). *)
Inductive value : Type :=
| Undefined
| Null
| Bool (b : bool)
| Num (n : number)
| Str (s : string)
| Arr (items : list value)
| Obj (props : list (string * value)).

(** [ToBoolean]. *)
Definition ToBoolean (v : value) : bool :=
  match v with
  | Undefined | Null => false
  | Bool b => b
  | Num n => negb (mantissa n =? 0)
  | Str s => negb (String.eqb s "")
  | Arr _ | Obj _ => true
  end.

(** [a ?? b] and [a || b]. *)
Definition nullish (a b : value) : value :=
  match a with
  | Undefined | Null => b
  | _ => a
  end.

Definition or_else (a b : value) : value := if ToBoolean a then a else b.

Notation "a ?? b" := (nullish a b) (at level 50, left associativity).
Notation "a ||| b" := (or_else a b) (at level 50, left associativity).

(** Own data property of an object literal. *)
Fixpoint lookup (k : string) (props : list (string * value)) : value :=
  match props with
  | [] => Undefined
  | (k', v) :: rest => if String.eqb k' k then v else lookup k rest
  end.

Definition has_own (k : string) (props : list (string * value)) : bool :=
  existsb (fun kv => String.eqb (fst kv) k) props.

Definition cannot_read (of_ k : string) : Error :=
  TypeError ("Cannot read properties of " ++ of_ ++ " (reading '" ++ k ++ "')").

(** [v.k] for the property names the front-ends read: own data properties of
    objects and [length] of arrays and strings.  None of these names is an
    array index or a member of [Object.prototype]. *)
Definition get (v : value) (k : string) : result value :=
  match v with
  | Undefined => Throw (cannot_read "undefined" k)
  | Null => Throw (cannot_read "null" k)
  | Obj props => Ok (lookup k props)
  | Arr items =>
      Ok (if String.eqb k "length" then Num (num_of_Z (Z.of_nat (List.length items)))
          else Undefined)
  | Str s =>
      Ok (if String.eqb k "length" then Num (num_of_Z (Z.of_nat (String.length s)))
          else Undefined)
  | Bool _ | Num _ => Ok Undefined
  end.

(** [v?.k]. *)
Definition get_opt (v : value) (k : string) : result value :=
  match v with
  | Undefined | Null => Ok Undefined
  | _ => get v k
  end.

(** [ToString].  An array is joined with commas, [null] and [undefined]
    elements giving the empty string.  A plain object inherits
    [Object.prototype.toString]; when an own data property shadows it the
    conversion to a primitive fails. *)
Fixpoint ToString (v : value) : result string :=
  match v with
  | Undefined => Ok "undefined"
  | Null => Ok "null"
  | Bool true => Ok "true"
  | Bool false => Ok "false"
  | Num n => Ok (Number_toString n)
  | Str s => Ok s
  | Arr items =>
      let elem (x : value) : result string :=
        match x with
        | Undefined | Null => Ok ""
        | _ => ToString x
        end in
      (fix join (l : list value) : result string :=
         match l with
         | [] => Ok ""
         | [x] => elem x
         | x :: rest => s <- elem x ;; t <- join rest ;; Ok (s ++ "," ++ t)
         end) items
  | Obj props =>
      if has_own "toString" props
      then Throw (TypeError "Cannot convert object to primitive value")
      else Ok "[object Object]"
  end.

(** A template literal: constant text and interpolated values. *)
Inductive piece := Lit (s : string) | Val (v : value).

Fixpoint template (ps : list piece) : result string :=
  match ps with
  | [] => Ok ""
  | Lit s :: rest => t <- template rest ;; Ok (s ++ t)
  | Val v :: rest => s <- ToString v ;; t <- template rest ;; Ok (s ++ t)
  end.

(** [x.toFixed(f)]: only a number has the method; a value decoded from JSON
    is never callable. *)
Definition call_toFixed (x : value) (f : nat) : result string :=
  match x with
  | Num n => Ok (toFixed n f)
  | Undefined => Throw (cannot_read "undefined" "toFixed")
  | Null => Throw (cannot_read "null" "toFixed")
  | _ => Throw (TypeError "toFixed is not a function")
  end.

(** [x?.toUpperCase?.()]: a string has the method; every other primitive and
    array has no such property; an object can only carry it as a data
    property, and calling one that is not [null] fails. *)
Definition optcall_toUpperCase (x : value) : result value :=
  match x with
  | Str s => Ok (Str (toUpperCase s))
  | Obj props =>
      match lookup "toUpperCase" props with
      | Undefined | Null => Ok Undefined
      | _ => Throw (TypeError "toUpperCase is not a function")
      end
  | _ => Ok Undefined
  end.

(** [Number(v)]; [None] is [NaN].  An array or object is first converted
    to a string. *)
Definition ToNumber (v : value) : result (option number) :=
  match v with
  | Undefined => Ok None
  | Null => Ok (Some zero)
  | Bool b => Ok (Some (if b then one else zero))
  | Num n => Ok (Some n)
  | Str s => Ok (StringToNumber s)
  | Arr _ | Obj _ => s <- ToString v ;; Ok (StringToNumber s)
  end.

(** A default parameter value, [f(x = d)]: used when the argument is
    [undefined] (and only then). *)
Definition default_param (x d : value) : value :=
  match x with
  | Undefined => d
  | _ => x
  end.

(** The values a [for ... of] loop visits.  A string is visited character by
    character (bytes here); a plain object is not iterable. *)
Fixpoint chars (s : string) : list value :=
  match s with
  | "" => []
  | String a rest => Str (String a "") :: chars rest
  end.

Definition iterate (v : value) : result (list value) :=
  match v with
  | Arr items => Ok items
  | Str s => Ok (chars s)
  | Undefined => Throw (TypeError "undefined is not iterable")
  | Null => Throw (TypeError "null is not iterable")
  | _ => Throw (TypeError "object is not iterable")
  end.

(** [!list.length]. *)
Definition no_length (list_ : value) : result bool :=
  len <- get list_ "length" ;;
  Ok (negb (ToBoolean len)).

(** [items.map(f)]: only an array has the method. *)
Definition call_map {A} (items : value) (f : value -> result A) : result (list A) :=
  match items with
  | Arr l =>
      (fix go (l : list value) : result (list A) :=
         match l with
         | [] => Ok []
         | x :: rest => y <- f x ;; ys <- go rest ;; Ok (y :: ys)
         end) l
  | Undefined => Throw (cannot_read "undefined" "map")
  | Null => Throw (cannot_read "null" "map")
  | _ => Throw (TypeError "map is not a function")
  end.

(** Concatenation of the pieces of a template literal. *)
Definition cat (pieces : list string) : string := String.concat "" pieces.

(** A line break followed by [n] spaces of indentation. *)
Definition nl (n : nat) : string := LF ++ repeat_string " " n.

(** ** [JSON.stringify] *)

Definition hex_digit (n : nat) : ascii :=
  match String.get n "0123456789abcdef" with
  | Some a => a
  | None => "0"%char
  end.

Definition backslash : string := String (ascii_of_nat 92) "".

(** One character of [QuoteJSONString]. *)
Definition escape_char (a : ascii) : string :=
  let n := nat_of_ascii a in
  if Nat.eqb n 8 then backslash ++ "b"
  else if Nat.eqb n 9 then backslash ++ "t"
  else if Nat.eqb n 10 then backslash ++ "n"
  else if Nat.eqb n 12 then backslash ++ "f"
  else if Nat.eqb n 13 then backslash ++ "r"
  else if Nat.eqb n 34 then backslash ++ dq
  else if Nat.eqb n 92 then backslash ++ backslash
  else if Nat.ltb n 32 then
    backslash ++ "u00" ++ String (hex_digit (n / 16)) (String (hex_digit (n mod 16)) "")
  else String a "".

Fixpoint quote_body (s : string) : string :=
  match s with
  | "" => ""
  | String a rest => escape_char a ++ quote_body rest
  end.

Definition QuoteJSONString (s : string) : string := dq ++ quote_body s ++ dq.

(** Brackets around the serialized members of an array or object. *)
Definition wrap (open_ close_ gap indent : string) (parts : list string) : string :=
  match parts with
  | [] => open_ ++ close_
  | _ =>
      if is_empty gap then open_ ++ String.concat "," parts ++ close_
      else
        let inner := indent ++ gap in
        open_ ++ LF ++ inner ++ String.concat ("," ++ LF ++ inner) parts ++
        LF ++ indent ++ close_
  end.

(** [SerializeJSONProperty]: [None] stands for [undefined].  An [undefined]
    array element is written [null]; an [undefined] property is left out. *)
Fixpoint serialize (gap indent : string) (v : value) {struct v} : option string :=
  match v with
  | Undefined => None
  | Null => Some "null"
  | Bool true => Some "true"
  | Bool false => Some "false"
  | Num n => Some (Number_toString n)
  | Str s => Some (QuoteJSONString s)
  | Arr items =>
      let parts :=
        (fix elements (l : list value) : list string :=
           match l with
           | [] => []
           | x :: rest =>
               match serialize gap (indent ++ gap) x with
               | Some s => s
               | None => "null"
               end :: elements rest
           end) items in
      Some (wrap "[" "]" gap indent parts)
  | Obj props =>
      let parts :=
        (fix members (l : list (string * value)) : list string :=
           match l with
           | [] => []
           | (k, x) :: rest =>
               match serialize gap (indent ++ gap) x with
               | Some s =>
                   (QuoteJSONString k ++ ":" ++ (if is_empty gap then "" else " ") ++ s)
                   :: members rest
               | None => members rest
               end
           end) props in
      Some (wrap "{" "}" gap indent parts)
  end.

(** [JSON.stringify(v, null, space)] for a numeric [space] (at most 10). *)
Definition JSON_stringify (v : value) (space : nat) : option string :=
  serialize (repeat_string " " (Nat.min 10 space)) "" v.

(** ** [JSON.parse]

    A number is kept as its literal denotes it, in lowest terms, and an
    object lists its keys in the order of the text.  The engine rounds the
    number to binary64 and lists the keys that are array indices before the
    others; the two agree on the texts whose numbers are short and whose
    keys are not numeric ([Shows.portable]). *)

Definition is_json_ws (a : ascii) : bool :=
  let n := nat_of_ascii a in
  (Nat.eqb n 32 || Nat.eqb n 9 || Nat.eqb n 10 || Nat.eqb n 13)%bool.

Fixpoint skip_ws (s : string) : string :=
  match s with
  | String a rest => if is_json_ws a then skip_ws rest else s
  | "" => ""
  end.

Fixpoint strip_prefix (pre s : string) : option string :=
  match pre, s with
  | "", _ => Some s
  | String a pre', String b s' => if Ascii.eqb a b then strip_prefix pre' s' else None
  | _, "" => None
  end.

Definition hex_val (a : ascii) : option nat :=
  let n := nat_of_ascii a in
  if (Nat.leb 48 n && Nat.leb n 57)%bool then Some (n - 48)%nat
  else if (Nat.leb 97 n && Nat.leb n 102)%bool then Some (n - 87)%nat
  else if (Nat.leb 65 n && Nat.leb n 70)%bool then Some (n - 55)%nat
  else None.

(** The UTF-8 bytes of a code unit given by a [\u] escape. *)
Definition utf8 (cp : nat) : string :=
  if Nat.ltb cp 128 then String (ascii_of_nat cp) ""
  else if Nat.ltb cp 2048 then
    String (ascii_of_nat (192 + cp / 64))
      (String (ascii_of_nat (128 + cp mod 64)) "")
  else
    String (ascii_of_nat (224 + cp / 4096))
      (String (ascii_of_nat (128 + (cp / 64) mod 64))
         (String (ascii_of_nat (128 + cp mod 64)) "")).

(** The character written by a two-character escape. *)
Definition unescape (e : ascii) : option ascii :=
  let n := nat_of_ascii e in
  if Nat.eqb n 34 then Some dquote
  else if Nat.eqb n 92 then Some (ascii_of_nat 92)
  else if Nat.eqb n 47 then Some (ascii_of_nat 47)
  else if Nat.eqb n 98 then Some (ascii_of_nat 8)
  else if Nat.eqb n 102 then Some (ascii_of_nat 12)
  else if Nat.eqb n 110 then Some (ascii_of_nat 10)
  else if Nat.eqb n 114 then Some (ascii_of_nat 13)
  else if Nat.eqb n 116 then Some (ascii_of_nat 9)
  else None.

Definition prepend (pre : string) (r : option (string * string)) : option (string * string) :=
  match r with
  | Some (s, rest) => Some (pre ++ s, rest)
  | None => None
  end.

(** A string literal after its opening quote: the text and what follows the
    closing quote. *)
Fixpoint parse_string_body (s : string) : option (string * string) :=
  match s with
  | "" => None
  | String a rest =>
      if Ascii.eqb a dquote then Some ("", rest)
      else if Nat.eqb (nat_of_ascii a) 92 then
        match rest with
        | String e rest' =>
            match unescape e with
            | Some c => prepend (String c "") (parse_string_body rest')
            | None =>
                if Ascii.eqb e "u" then
                  match rest' with
                  | String h1 (String h2 (String h3 (String h4 rest''))) =>
                      match hex_val h1, hex_val h2, hex_val h3, hex_val h4 with
                      | Some a1, Some a2, Some a3, Some a4 =>
                          prepend (utf8 (((a1 * 16 + a2) * 16 + a3) * 16 + a4))
                                  (parse_string_body rest'')
                      | _, _, _, _ => None
                      end
                  | _ => None
                  end
                else None
            end
        | "" => None
        end
      else if Nat.ltb (nat_of_ascii a) 32 then None
      else prepend (String a "") (parse_string_body rest)
  end.

(** A number literal after its sign: int frac? exp?, without a superfluous
    leading zero. *)
Definition parse_unsigned (neg : bool) (s : string) : option (number * string) :=
  let (int_, s) := span_digits s in
  match int_ with
  | [] => None
  | 0 :: _ :: _ => None
  | _ =>
      let frac :=
        match after "." s with
        | Some r =>
            match span_digits r with
            | ([], _) => None
            | (f, r') => Some (f, r')
            end
        | None => Some ([], s)
        end in
      match frac with
      | None => None
      | Some (f, s) =>
          match read_exponent s with
          | Some (e, s) => Some (make_number neg int_ f e, s)
          | None => None
          end
      end
  end.

(** A number literal; only a minus sign may precede it. *)
Definition parse_number (s : string) : option (number * string) :=
  let (neg, s) := read_sign false s in
  parse_unsigned neg s.

(** [obj[k] = v]: the value of an existing key is replaced in place, a new
    key goes last. *)
Fixpoint set_prop (k : string) (v : value) (props : list (string * value))
  : list (string * value) :=
  match props with
  | [] => [(k, v)]
  | (k', v') :: rest =>
      if String.eqb k' k then (k', v) :: rest else (k', v') :: set_prop k v rest
  end.

Definition build_object (members : list (string * value)) : value :=
  Obj (fold_left (fun props kv => set_prop (fst kv) (snd kv) props) members []).

Fixpoint parse_value (fuel : nat) (s : string) {struct fuel} : option (value * string) :=
  match fuel with
  | O => None
  | S fuel' =>
      match skip_ws s with
      | "" => None
      | String c rest as s' =>
          if Ascii.eqb c "n" then
            match strip_prefix "ull" rest with
            | Some r => Some (Null, r)
            | None => None
            end
          else if Ascii.eqb c "t" then
            match strip_prefix "rue" rest with
            | Some r => Some (Bool true, r)
            | None => None
            end
          else if Ascii.eqb c "f" then
            match strip_prefix "alse" rest with
            | Some r => Some (Bool false, r)
            | None => None
            end
          else if Ascii.eqb c dquote then
            match parse_string_body rest with
            | Some (str, r) => Some (Str str, r)
            | None => None
            end
          else if Ascii.eqb c "[" then
            match after "]" (skip_ws rest) with
            | Some r => Some (Arr [], r)
            | None =>
                match parse_elements fuel' rest with
                | Some (items, r) => Some (Arr items, r)
                | None => None
                end
            end
          else if Ascii.eqb c "{" then
            match after "}" (skip_ws rest) with
            | Some r => Some (Obj [], r)
            | None =>
                match parse_members fuel' rest with
                | Some (members, r) => Some (build_object members, r)
                | None => None
                end
            end
          else
            match parse_number s' with
            | Some (n, r) => Some (Num n, r)
            | None => None
            end
      end
  end

with parse_elements (fuel : nat) (s : string) {struct fuel}
  : option (list value * string) :=
  match fuel with
  | O => None
  | S fuel' =>
      match parse_value fuel' s with
      | None => None
      | Some (v, r) =>
          match skip_ws r with
          | String "," r' =>
              match parse_elements fuel' r' with
              | Some (vs, r'') => Some (v :: vs, r'')
              | None => None
              end
          | String "]" r' => Some ([v], r')
          | _ => None
          end
      end
  end

with parse_members (fuel : nat) (s : string) {struct fuel}
  : option (list (string * value) * string) :=
  match fuel with
  | O => None
  | S fuel' =>
      match skip_ws s with
      | String q r0 =>
          if Ascii.eqb q dquote then
            match parse_string_body r0 with
            | None => None
            | Some (k, r1) =>
                match skip_ws r1 with
                | String ":" r2 =>
                    match parse_value fuel' r2 with
                    | None => None
                    | Some (v, r3) =>
                        match skip_ws r3 with
                        | String "," r4 =>
                            match parse_members fuel' r4 with
                            | Some (ms, r5) => Some ((k, v) :: ms, r5)
                            | None => None
                            end
                        | String "}" r4 => Some ([(k, v)], r4)
                        | _ => None
                        end
                    end
                | _ => None
                end
            end
          else None
      | "" => None
      end
  end.

(** [JSON.parse(text)]: one value, with nothing but white space after it. *)
Definition JSON_parse (text : string) : result value :=
  match parse_value (S (String.length text)) text with
  | Some (v, rest) =>
      if is_empty (skip_ws rest) then Ok v
      else Throw (SyntaxError "Unexpected non-whitespace character after JSON")
  | None => Throw (SyntaxError "Unexpected token in JSON")
  end.

(** ** Forms and [fetch] *)

(** A selected file: only its size is read. *)
Record File := mkFile { file_name : string; size : Z }.

Inductive FormValue := FileValue (f : File) | TextValue (s : string).

(** The fields appended to a [FormData], in order. *)
Definition FormData := list (string * FormValue).

(** The values appended under one name. *)
Definition field (k : string) (data : FormData) : list FormValue :=
  map snd (filter (fun kv => String.eqb (fst kv) k) data).

Record Request := mkRequest { url : string; method : string; body : FormData }.

(** What the server answered: [response.ok] and the outcome of
    [response.json()]. *)
Record Response := mkResponse { ok : bool; json : result value }.

(** What [JSON.parse] returns: no [undefined] anywhere, every number in
    lowest terms, the keys of every object distinct. *)
Fixpoint distinct (keys : list string) : bool :=
  match keys with
  | [] => true
  | k :: rest => (negb (existsb (String.eqb k) rest) && distinct rest)%bool
  end.

Fixpoint decoded (v : value) : bool :=
  match v with
  | Undefined => false
  | Null | Bool _ | Str _ => true
  | Num n => canonical n
  | Arr items => forallb decoded items
  | Obj props =>
      (distinct (map fst props) && forallb (fun kv => decoded (snd kv)) props)%bool
  end.

End JS.
(* ===================================================================== *)
(** * The front-end bound to [analyze-form] *)
(* ===================================================================== *)

Module AnalyzeForm.
Import JS.

(** ** The page *)

(** An element made by [document.createElement]. *)
Inductive Node : Type :=
  mkNode {
    tagName : string;
    className : string;
    textContent : string;
    style : list (string * string);
    childNodes : list Node
  }.

Definition createElement (tag : string) : Node := mkNode tag "" "" [] [].

Definition with_class (c : string) (n : Node) : Node :=
  mkNode (tagName n) c (textContent n) (style n) (childNodes n).
Definition with_text (t : string) (n : Node) : Node :=
  mkNode (tagName n) (className n) t (style n) (childNodes n).
Definition with_style (k v : string) (n : Node) : Node :=
  mkNode (tagName n) (className n) (textContent n) (style n ++ [(k, v)])%list (childNodes n).
Definition append (kids : list Node) (n : Node) : Node :=
  mkNode (tagName n) (className n) (textContent n) (style n) (childNodes n ++ kids)%list.

(** The six containers the renderers fill. *)
Inductive Container :=
  summaryEl | scoreCardEl | operationalEl | checklistEl | highlightsEl | transcriptEl.

Record Blob := mkBlob { content : string; mime : string }.

(** A click on a link carrying a [download] attribute. *)
Record Download := mkDownload { download : string; href : Blob }.

Record Page := mkPage {
  submitBtn_disabled : bool;
  statusEl : string * string;      (* textContent, dataset.type *)
  results_hidden : bool;           (* resultsSection.hidden *)
  in_summary : list Node;
  in_scoreCard : list Node;
  in_operational : list Node;
  in_checklist : list Node;
  in_highlights : list Node;
  in_transcript : list Node;
  lastPayload : value;
  (* what has left the page *)
  awaiting : nat;                  (* handler activations suspended at [await fetch] *)
  requests : list Request;         (* calls of [fetch], oldest first *)
  downloads : list Download;
  windows : list Blob;             (* documents handed to [window.open] *)
  console : list Error             (* arguments of [console.error] *)
}.

Definition children (c : Container) (p : Page) : list Node :=
  match c with
  | summaryEl => in_summary p
  | scoreCardEl => in_scoreCard p
  | operationalEl => in_operational p
  | checklistEl => in_checklist p
  | highlightsEl => in_highlights p
  | transcriptEl => in_transcript p
  end.

Definition set_children (c : Container) (l : list Node) (p : Page) : Page :=
  let pick c' old := match c, c' with
                     | summaryEl, summaryEl | scoreCardEl, scoreCardEl
                     | operationalEl, operationalEl | checklistEl, checklistEl
                     | highlightsEl, highlightsEl | transcriptEl, transcriptEl => l
                     | _, _ => old
                     end in
  mkPage (submitBtn_disabled p) (statusEl p) (results_hidden p)
         (pick summaryEl (in_summary p)) (pick scoreCardEl (in_scoreCard p))
         (pick operationalEl (in_operational p)) (pick checklistEl (in_checklist p))
         (pick highlightsEl (in_highlights p)) (pick transcriptEl (in_transcript p))
         (lastPayload p) (awaiting p) (requests p) (downloads p) (windows p) (console p).

Definition set_disabled (b : bool) (p : Page) : Page :=
  mkPage b (statusEl p) (results_hidden p) (in_summary p) (in_scoreCard p)
         (in_operational p) (in_checklist p) (in_highlights p) (in_transcript p)
         (lastPayload p) (awaiting p) (requests p) (downloads p) (windows p) (console p).

Definition set_statusEl (s : string * string) (p : Page) : Page :=
  mkPage (submitBtn_disabled p) s (results_hidden p) (in_summary p) (in_scoreCard p)
         (in_operational p) (in_checklist p) (in_highlights p) (in_transcript p)
         (lastPayload p) (awaiting p) (requests p) (downloads p) (windows p) (console p).

Definition set_hidden (b : bool) (p : Page) : Page :=
  mkPage (submitBtn_disabled p) (statusEl p) b (in_summary p) (in_scoreCard p)
         (in_operational p) (in_checklist p) (in_highlights p) (in_transcript p)
         (lastPayload p) (awaiting p) (requests p) (downloads p) (windows p) (console p).

Definition set_lastPayload (v : value) (p : Page) : Page :=
  mkPage (submitBtn_disabled p) (statusEl p) (results_hidden p) (in_summary p)
         (in_scoreCard p) (in_operational p) (in_checklist p) (in_highlights p)
         (in_transcript p) v (awaiting p) (requests p) (downloads p) (windows p)
         (console p).

Definition set_network (n : nat) (rs : list Request) (p : Page) : Page :=
  mkPage (submitBtn_disabled p) (statusEl p) (results_hidden p) (in_summary p)
         (in_scoreCard p) (in_operational p) (in_checklist p) (in_highlights p)
         (in_transcript p) (lastPayload p) n rs (downloads p) (windows p) (console p).

Definition set_outputs (ds : list Download) (ws : list Blob) (es : list Error)
    (p : Page) : Page :=
  mkPage (submitBtn_disabled p) (statusEl p) (results_hidden p) (in_summary p)
         (in_scoreCard p) (in_operational p) (in_checklist p) (in_highlights p)
         (in_transcript p) (lastPayload p) (awaiting p) (requests p) ds ws es.

(** The page as loaded: [let lastPayload = null], the results section hidden
    by the markup, nothing requested yet. *)
Definition initial : Page :=
  mkPage false ("", "") true [] [] [] [] [] [] Null 0 [] [] [] [].

(** ** Statements that change the page and may throw

    The page reached when an exception is thrown is kept: what a renderer
    appended before failing stays in the document. *)
Definition M (A : Type) : Type := Page -> result A * Page.

Definition ret {A} (a : A) : M A := fun p => (Ok a, p).

Definition seq {A B} (c : M A) (k : A -> M B) : M B :=
  fun p => match c p with
           | (Ok a, p') => k a p'
           | (Throw e, p') => (Throw e, p')
           end.

Definition lift {A} (r : result A) : M A := fun p => (r, p).

Definition modify (f : Page -> Page) : M unit := fun p => (Ok tt, f p).

Notation "x <~ c ;; k" := (seq c (fun x => k))
  (at level 61, c at next level, right associativity).
Notation "c >> k" := (seq c (fun _ => k))
  (at level 61, right associativity).

(** [for (const x of l) body]. *)
Fixpoint for_each {A} (l : list A) (body : A -> M unit) : M unit :=
  match l with
  | [] => ret tt
  | x :: rest => body x >> for_each rest body
  end.

(** ** The source, function by function *)

(** [fmtPercent]: [Number(value || 0).toFixed(1)] followed by [%]. *)
Definition fmtPercent (v : value) : result string :=
  n <- ToNumber (v ||| Num zero) ;;
  Ok (match n with
      | Some x => toFixed x 1
      | None => "NaN"
      end ++ "%").

Definition setStatus (message_ : string) (type : string) : M unit :=
  modify (set_statusEl (message_, type)).

Definition clearContainer (node : Container) : M unit :=
  modify (set_children node []).

Definition appendChild (node : Container) (kids : list Node) : M unit :=
  modify (fun p => set_children node (children node p ++ kids)%list p).

Definition element (tag cls text : string) : Node :=
  with_text text (with_class cls (createElement tag)).

(** The rows of the summary, before they are put in the document. *)
Definition summary_items (payload : value) : result (list (string * value)) :=
  callId <- get payload "callId" ;;
  lang <- get payload "lang" ;;
  upper <- optcall_toUpperCase lang ;;
  durationSec <- get payload "durationSec" ;;
  duration <- call_toFixed (durationSec ?? Num zero) 1 ;;
  consent <- get payload "consent" ;;
  partial <- get payload "partial" ;;
  Ok ([ ("Call ID", callId);
        ("Язык", upper ||| Str "–");
        ("Длительность", Str (duration ++ " сек"));
        ("Согласие", Str (if ToBoolean consent then "Получено" else "Не указано")) ]
      ++ (if ToBoolean partial then [("LLM", Str "Частичный ответ")] else []))%list.

Definition summary_row (item : string * value) : result Node :=
  text <- ToString (snd item ?? Str "–") ;;
  Ok (append [ element "span" "summary-item__label" (fst item);
               element "span" "summary-item__value" text ]
             (with_class "summary-item" (createElement "div"))).

Definition renderSummary (payload : value) : M unit :=
  clearContainer summaryEl >>
  items <~ lift (summary_items payload) ;;
  for_each items (fun item =>
    wrapper <~ lift (summary_row item) ;;
    appendChild summaryEl [wrapper]).

(** The filled fraction of a score bar, in the words of the specification:
    [max(0, min(1, v))]. *)
Definition spec_fill_fraction (v : Q) : Q := Qmax 0 (Qmin 1 v).

(** The filled fraction of a score bar, as computed by [renderScores]. *)
Definition score_fill (rawValue : value) : number :=
  match rawValue with
  | Num n => Math_max zero (Math_min one n)
  | _ => zero
  end.

Definition score_row (label : string) (rawValue : value) : result Node :=
  let labelEl := element "span" "score-label" label in
  let progress := with_class "score-bar" (createElement "div") in
  let fill := with_class "score-bar__fill" (createElement "div") in
  let value_ := score_fill rawValue in
  let fill := with_style "transform" ("scaleX(" ++ Number_toString value_ ++ ")") fill in
  let fill := with_style "transformOrigin" "left" fill in
  text <- call_toFixed (rawValue ?? Num zero) 2 ;;
  let valueLabel := element "span" "score-value" text in
  Ok (append [labelEl; append [fill] progress; valueLabel]
             (with_class "score-row" (createElement "div"))).

Definition renderScores (scores : value) : M unit :=
  let scores := default_param scores (Obj []) in
  clearContainer scoreCardEl >>
  map_ <~ lift (empathy <- get scores "empathy" ;;
                compliance <- get scores "compliance" ;;
                structure <- get scores "structure" ;;
                Ok [("Эмпатия", empathy); ("Комплаенс", compliance);
                    ("Структура", structure)]) ;;
  for_each map_ (fun '(label, rawValue) =>
    row <~ lift (score_row label rawValue) ;;
    appendChild scoreCardEl [row]).

Definition operational_items (operational : value) : result (list (string * value)) :=
  speech <- get operational "speechRateWpm" ;;
  let speech := speech ||| Obj [] in
  interruptions <- get operational "interruptions" ;;
  let interruptions := interruptions ||| Obj [] in
  silencePct <- get operational "silencePct" ;;
  silence <- fmtPercent silencePct ;;
  overlapPct <- get operational "overlapPct" ;;
  overlap <- fmtPercent overlapPct ;;
  manager <- get speech "manager" ;;
  managerWpm <- template [Val (manager ?? Num zero); Lit " wpm"] ;;
  client <- get speech "client" ;;
  clientWpm <- template [Val (client ?? Num zero); Lit " wpm"] ;;
  byManager <- get interruptions "byManager" ;;
  byClient <- get interruptions "byClient" ;;
  Ok [ ("Тишина", Str silence);
       ("Перекрытия", Str overlap);
       ("Темп речи (менеджер)", Str managerWpm);
       ("Темп речи (клиент)", Str clientWpm);
       ("Перебивания менеджера", byManager ?? Num zero);
       ("Перебивания клиента", byClient ?? Num zero) ].

Definition renderOperational (operational : value) : M unit :=
  let operational := default_param operational (Obj []) in
  clearContainer operationalEl >>
  items <~ lift (operational_items operational) ;;
  for_each items (fun '(label, value_) =>
    text <~ lift (ToString value_) ;;
    appendChild operationalEl [element "dt" "" label; element "dd" "" text]).

(** The placeholder of an empty list. *)
Definition empty_note (text : string) : Node := element "p" "empty" text.

Definition checklist_card (item : value) : result Node :=
  id <- get item "id" ;;
  score <- get item "score" ;;
  max_ <- get item "max" ;;
  title <- template [Val (id ||| Str "Пункт"); Lit " · ";
                     Val (score ?? Num zero); Lit "/"; Val (max_ ?? Num zero)] ;;
  passed <- get item "passed" ;;
  reason <- get item "reason" ;;
  reasonText <- ToString (reason ||| Str "—") ;;
  evidence <- get item "evidence" ;;
  evidenceText <-
    (if ToBoolean evidence then
       ts <- get item "ts" ;;
       template [Val (ts ||| Str ""); Lit " · "; Val evidence]
     else Ok "") ;;
  let card := with_class "card" (createElement "article") in
  let card :=
    append [ element "div" "card__title" title;
             element "div" "card__meta"
                     (if ToBoolean passed then "Выполнено" else "Нужно внимание");
             element "p" "" reasonText ] card in
  Ok (if is_empty evidenceText then card
      else append [element "p" "card__meta" evidenceText] card).

Definition renderChecklist (list_ : value) : M unit :=
  let list_ := default_param list_ (Arr []) in
  clearContainer checklistEl >>
  none <~ lift (no_length list_) ;;
  if none : bool then appendChild checklistEl [empty_note "Чек-лист пуст"]
  else
    items <~ lift (iterate list_) ;;
    for_each items (fun item =>
      card <~ lift (checklist_card item) ;;
      appendChild checklistEl [card]).

Definition highlight_card (item : value) : result Node :=
  type <- get item "type" ;;
  title <- ToString (type ||| Str "Событие") ;;
  quote <- get item "quote" ;;
  quoteText <- ToString (quote ||| Str "—") ;;
  ts <- get item "ts" ;;
  metaText <- ToString (ts ||| Str "") ;;
  let card := with_class "card card--highlight" (createElement "article") in
  let card := append [element "div" "card__title" title; element "p" "" quoteText] card in
  Ok (if is_empty metaText then card
      else append [element "div" "card__meta" metaText] card).

Definition renderHighlights (items : value) : M unit :=
  let items := default_param items (Arr []) in
  clearContainer highlightsEl >>
  none <~ lift (no_length items) ;;
  if none : bool then appendChild highlightsEl [empty_note "Нет выделенных моментов"]
  else
    each <~ lift (iterate items) ;;
    for_each each (fun item =>
      card <~ lift (highlight_card item) ;;
      appendChild highlightsEl [card]).

Definition transcript_row (seg : value) : result Node :=
  speaker <- get seg "speaker" ;;
  speakerText <- ToString (speaker ||| Str "?") ;;
  start <- get seg "start" ;;
  startText <- call_toFixed start 2 ;;
  end_ <- get seg "end" ;;
  endText <- call_toFixed end_ 2 ;;
  text <- get seg "text" ;;
  textText <- ToString (text ||| Str "") ;;
  Ok (append [ element "div" "transcript-meta"
                       (speakerText ++ " · " ++ startText ++ "–" ++ endText ++ " c");
               element "div" "transcript-text" textText ]
             (with_class "transcript-row" (createElement "div"))).

Definition renderTranscript (transcript : value) : M unit :=
  let transcript := default_param transcript (Arr []) in
  clearContainer transcriptEl >>
  none <~ lift (no_length transcript) ;;
  if none : bool then appendChild transcriptEl [empty_note "Нет сегментов"]
  else
    segs <~ lift (iterate transcript) ;;
    for_each segs (fun seg =>
      row <~ lift (transcript_row seg) ;;
      appendChild transcriptEl [row]).

Definition render (payload : value) : M unit :=
  renderSummary payload >>
  scores <~ lift (get payload "scores") ;;
  renderScores scores >>
  operational <~ lift (get payload "operational") ;;
  renderOperational operational >>
  checklist <~ lift (get payload "checklist") ;;
  renderChecklist checklist >>
  highlights <~ lift (get payload "highlights") ;;
  renderHighlights highlights >>
  transcript <~ lift (get payload "transcript") ;;
  renderTranscript transcript >>
  modify (set_hidden false).

(** ** The listeners

    [pingHealth], which the script starts once when it loads, reads and
    writes nothing of the page (a failure goes to [console.warn]); it is
    left out, and [requests] records the calls of [fetch] made by the
    [submit] listener. *)

(** [fetch(...)]: the request leaves the page and the handler is suspended
    until it settles. *)
Definition fetch (r : Request) : M unit :=
  modify (fun p => set_network (S (awaiting p)) (requests p ++ [r])%list p).

Definition file_limit : Z := 100 * 1024 * 1024.

(** The [submit] listener, from the dispatch of the event to
    [await fetch(...)]; [files] is [audioInput.files] and [checked] is
    [consentInput.checked]. *)
Definition on_submit (files : list File) (checked : bool) : M unit :=
  match files with
  | [] => setStatus "Выберите аудиофайл" "error"
  | file :: _ =>
      if file_limit <? size file then setStatus "Файл больше 100 МБ" "error"
      else
        let formData :=
          ([("audio", FileValue file)]
           ++ (if checked then [("consent", TextValue "true")] else []))%list in
        modify (set_disabled true) >>
        setStatus "Файл загружен, запускаем анализ..." "info" >>
        fetch (mkRequest "/api/analyze" "POST" formData)
  end.

(** The body of the [try] block, resumed with the settled [fetch]. *)
Definition analyze_try (outcome : result Response) : M unit :=
  response <~ lift outcome ;;
  payload <~ lift (json response) ;;
  (if ok response then ret tt
   else lift (detail <- get payload "detail" ;;
              msg <- ToString (detail ||| Str "Не удалось выполнить анализ") ;;
              Throw (new_Error msg))) >>
  modify (set_lastPayload payload) >>
  render payload >>
  setStatus "Готово! Отчёт сохранён в артефактах." "success".

Definition console_error (e : Error) : M unit :=
  modify (fun p => set_outputs (downloads p) (windows p) (console p ++ [e])%list p).

(** [try { ... } catch (error) { ... } finally { ... }]. *)
Definition on_settled (outcome : result Response) : M unit :=
  fun p =>
    let (r, p) := analyze_try outcome p in
    let (_, p) :=
      match r with
      | Ok _ => (Ok tt, p)
      | Throw error =>
          (console_error error >>
           setStatus (if is_empty (message error) then "Ошибка при анализе"
                      else message error) "error") p
      end in
    modify (set_disabled false) p.

(** [downloadJson].  The object URL made for the blob is revoked by a timer
    one second later, which is not part of this model. *)
Definition downloadJson : M unit :=
  fun p =>
    if negb (ToBoolean (lastPayload p)) then
      setStatus "Сначала выполните анализ" "error" p
    else
      let blob :=
        mkBlob (match JSON_stringify (lastPayload p) 2 with
                | Some s => s
                | None => "undefined"
                end) "application/json" in
      (name_ <~ lift (callId <- get (lastPayload p) "callId" ;;
                      template [Val (callId ||| Str "report"); Lit ".json"]) ;;
       modify (fun p => set_outputs (downloads p ++ [mkDownload name_ blob])%list
                                    (windows p) (console p) p)) p.

(** The listener of the [open-html] button. *)
Definition openHtml : M unit :=
  fun p =>
    (reportHtml <~ lift (get_opt (lastPayload p) "reportHtml") ;;
     if negb (ToBoolean reportHtml) then setStatus "Нет HTML отчёта" "error"
     else
       html <~ lift (ToString reportHtml) ;;
       modify (fun p => set_outputs (downloads p)
                                    (windows p ++ [mkBlob html "text/html"])%list
                                    (console p) p)) p.

(** ** The page as an event-driven system *)

Inductive Event :=
| Submit (files : list File) (checked : bool)  (* the user submits the form *)
| Settled (outcome : result Response)          (* a pending [fetch] settles *)
| ClickDownload
| ClickOpenHtml.

(** The page after a listener has run; an exception that leaves a listener
    is reported by the browser and does not undo what the listener did. *)
Definition run (c : M unit) (p : Page) : Page := snd (c p).

(** The browser does not let the user submit a form through a disabled
    submit button: neither a click on it nor implicit submission dispatches
    the [submit] event. *)
Definition step (ev : Event) (p : Page) : Page :=
  match ev with
  | Submit files checked =>
      if submitBtn_disabled p then p else run (on_submit files checked) p
  | Settled outcome =>
      match awaiting p with
      | O => p
      | S n => run (on_settled outcome) (set_network n (requests p) p)
      end
  | ClickDownload => run downloadJson p
  | ClickOpenHtml => run openHtml p
  end.

Definition steps (evs : list Event) (p : Page) : Page :=
  fold_left (fun p ev => step ev p) evs p.

End AnalyzeForm.

(* ===================================================================== *)
(** * The front-end of [web/frontend/app.js], bound to [upload-form] *)
(* ===================================================================== *)

Module UploadForm.
Import JS.

(** ** Escaping *)

Definition amp : ascii := ascii_of_nat 38.
Definition lt : ascii := ascii_of_nat 60.
Definition gt : ascii := ascii_of_nat 62.
Definition apos : ascii := ascii_of_nat 39.

(** The five replacements of [escapeHtml], in the order of the source. *)
Definition escape_text (s : string) : string :=
  replace apos "&#039;"
    (replace dquote "&quot;"
       (replace gt "&gt;"
          (replace lt "&lt;"
             (replace amp "&amp;" s)))).

Definition escapeHtml (value_ : value) : result string :=
  s <- ToString value_ ;;
  Ok (escape_text s).

Definition escapeAttribute (value_ : value) : result string :=
  s <- escapeHtml value_ ;;
  Ok (replace dquote "&quot;" s).

(** ** Rendering to markup *)

Definition renderScoreCard (title : string) (value_ : value) : result string :=
  let displayValue :=
    match value_ with
    | Num n => toFixed n 2
    | _ => "-"
    end in
  title_ <- escapeHtml (Str title) ;;
  Ok (cat [ nl 4; "<div class="; dq; "score-card"; dq; ">";
            nl 6; "<h3>"; title_; "</h3>";
            nl 6; "<div class="; dq; "value"; dq; ">"; displayValue; "</div>";
            nl 4; "</div>"; nl 2 ]).

(** [JSON.stringify(x)] as an argument of [escapeHtml]. *)
Definition stringified (x : value) : value :=
  match JSON_stringify x 0 with
  | Some s => Str s
  | None => Undefined
  end.

Definition renderOperational (operational : value) : result string :=
  let operational := default_param operational (Obj []) in
  silencePct <- get operational "silencePct" ;;
  silence <- call_toFixed (silencePct ?? Num zero) 2 ;;
  overlapPct <- get operational "overlapPct" ;;
  overlap <- call_toFixed (overlapPct ?? Num zero) 2 ;;
  speechRateWpm <- get operational "speechRateWpm" ;;
  speech <- escapeHtml (stringified (speechRateWpm ||| Obj [])) ;;
  interruptions <- get operational "interruptions" ;;
  interrupts <- escapeHtml (stringified (interruptions ||| Obj [])) ;;
  Ok (cat [ nl 4; "<div class="; dq; "score-card"; dq; ">";
            nl 6; "<p>Тишина: "; silence; "%</p>";
            nl 6; "<p>Пересечения: "; overlap; "%</p>";
            nl 6; "<p>Темп речи: "; speech; "</p>";
            nl 6; "<p>Перебивания: "; interrupts; "</p>";
            nl 4; "</div>"; nl 2 ]).

(** [escapeHtml(String(item.k ?? ""))]. *)
Definition cell (item : value) (k : string) : result string :=
  v <- get item k ;;
  s <- ToString (v ?? Str "") ;;
  escapeHtml (Str s).

Definition checklist_row (item : value) : result string :=
  id <- cell item "id" ;;
  passed <- get item "passed" ;;
  reason <- cell item "reason" ;;
  evidence <- cell item "evidence" ;;
  ts <- cell item "ts" ;;
  Ok (cat [ nl 8; "<tr>";
            nl 10; "<td>"; id; "</td>";
            nl 10; "<td>"; (if ToBoolean passed then "✅" else "⚠️"); "</td>";
            nl 10; "<td>"; reason; "</td>";
            nl 10; "<td>"; evidence; "</td>";
            nl 10; "<td>"; ts; "</td>";
            nl 8; "</tr>"; nl 6 ]).

Definition muted (text : string) : string :=
  cat ["<p class="; dq; "muted"; dq; ">"; text; "</p>"].

Definition renderChecklist (items : value) : result string :=
  none <- no_length items ;;
  if none : bool then Ok (muted "Нет пунктов чек-листа")
  else
    rows <- call_map items checklist_row ;;
    Ok (cat [ nl 4; "<div class="; dq; "table-wrapper"; dq; ">";
              nl 6; "<table class="; dq; "table"; dq; ">";
              nl 8; "<thead><tr><th>ID</th><th>Статус</th><th>Комментарий</th><th>Цитата</th><th>TS</th></tr></thead>";
              nl 8; "<tbody>"; cat rows; "</tbody>";
              nl 6; "</table>";
              nl 4; "</div>"; nl 2 ]).

Definition highlight_item (item : value) : result string :=
  type <- cell item "type" ;;
  quote <- cell item "quote" ;;
  ts <- cell item "ts" ;;
  Ok (cat [ nl 12; "<li>";
            nl 14; "<strong>"; type; "</strong>";
            nl 14; "<div>"; quote; "</div>";
            nl 14; "<span class="; dq; "badge"; dq; ">"; ts; "</span>";
            nl 12; "</li>"; nl 10 ]).

Definition renderHighlights (items : value) : result string :=
  none <- no_length items ;;
  if none : bool then Ok (muted "Нет хайлайтов")
  else
    lis <- call_map items highlight_item ;;
    Ok (cat [ nl 4; "<ul class="; dq; "list"; dq; ">";
              nl 6; cat lis;
              nl 4; "</ul>"; nl 2 ]).

Definition transcript_row (segment : value) : result string :=
  ts <- cell segment "ts" ;;
  speaker <- cell segment "speaker" ;;
  text <- cell segment "text" ;;
  Ok (cat [ nl 8; "<tr>";
            nl 10; "<td>"; ts; "</td>";
            nl 10; "<td>"; speaker; "</td>";
            nl 10; "<td>"; text; "</td>";
            nl 8; "</tr>"; nl 6 ]).

Definition renderTranscript (segments : value) : result string :=
  none <- no_length segments ;;
  if none : bool then Ok (muted "Нет расшифровки")
  else
    rows <- call_map segments transcript_row ;;
    Ok (cat [ nl 4; "<div class="; dq; "table-wrapper"; dq; ">";
              nl 6; "<table class="; dq; "table"; dq; ">";
              nl 8; "<thead><tr><th>Таймкод</th><th>Роль</th><th>Текст</th></tr></thead>";
              nl 8; "<tbody>"; cat rows; "</tbody>";
              nl 6; "</table>";
              nl 4; "</div>"; nl 2 ]).

Definition renderArtifactLink (label : string) (info : value) : result string :=
  if negb (ToBoolean info) then Ok ""
  else
    url_ <- get info "url" ;;
    path <- get info "path" ;;
    let url_ := url_ ||| path in
    if negb (ToBoolean url_) then Ok ""
    else
      href_ <- escapeAttribute url_ ;;
      label_ <- escapeHtml (Str label) ;;
      Ok (cat [ "<a href="; dq; href_; dq; " target="; dq; "_blank"; dq;
                " rel="; dq; "noopener"; dq; ">"; label_; "</a>" ]).

(** [data.durationSec?.toFixed ? data.durationSec.toFixed(2) : data.durationSec],
    as interpolated. *)
Definition duration_text (durationSec : value) : result string :=
  match durationSec with
  | Num n => Ok (toFixed n 2)
  | Obj props =>
      if ToBoolean (lookup "toFixed" props)
      then Throw (TypeError "toFixed is not a function")
      else ToString durationSec
  | _ => ToString durationSec
  end.

(** The markup assigned to [resultEl.innerHTML]. *)
Definition result_markup (data : value) : result string :=
  callId <- get data "callId" ;;
  callId <- escapeHtml callId ;;
  language <- get data "language" ;;
  language <- escapeHtml (language ||| Str "-") ;;
  durationSec <- get data "durationSec" ;;
  duration <- duration_text durationSec ;;
  consent <- get data "consent" ;;
  scores <- get data "scores" ;;
  empathy <- get_opt scores "empathy" ;;
  empathy <- renderScoreCard "Эмпатия" (empathy ?? Num zero) ;;
  compliance <- get_opt scores "compliance" ;;
  compliance <- renderScoreCard "Комплаенс" (compliance ?? Num zero) ;;
  structure <- get_opt scores "structure" ;;
  structure <- renderScoreCard "Структура" (structure ?? Num zero) ;;
  artifacts <- get data "artifacts" ;;
  json_ <- get_opt artifacts "json" ;;
  json_ <- renderArtifactLink "JSON" json_ ;;
  html <- get_opt artifacts "html" ;;
  html <- renderArtifactLink "HTML" html ;;
  transcript <- get_opt artifacts "transcript" ;;
  transcript <- renderArtifactLink "Транскрипт" transcript ;;
  operational <- get data "operational" ;;
  operational <- renderOperational operational ;;
  checklist <- get_opt scores "checklist" ;;
  checklist <- renderChecklist (checklist ||| Arr []) ;;
  highlights <- get_opt scores "highlights" ;;
  highlights <- renderHighlights (highlights ||| Arr []) ;;
  segments <- get data "segments" ;;
  segments <- renderTranscript (segments ||| Arr []) ;;
  Ok (cat [ nl 4; "<div class="; dq; "result-header"; dq; ">";
            nl 6; "<div>";
            nl 8; "<h2>Отчёт по звонку "; callId; "</h2>";
            nl 8; "<p class="; dq; "meta"; dq; ">Язык: "; language;
                  " · Длительность: "; duration; " c</p>";
            nl 6; "</div>";
            nl 6; "<div class="; dq; "badge"; dq; ">";
                  (if ToBoolean consent then "С согласия" else "Без подтверждения");
                  "</div>";
            nl 4; "</div>";
            nl 4; "<div class="; dq; "result-grid"; dq; ">";
            nl 6; empathy;
            nl 6; compliance;
            nl 6; structure;
            nl 4; "</div>";
            nl 4; "<div class="; dq; "artifacts"; dq; ">";
            nl 6; json_;
            nl 6; html;
            nl 6; transcript;
            nl 4; "</div>";
            nl 4; "<h3 class="; dq; "section-title"; dq; ">Операционные метрики</h3>";
            nl 4; operational;
            nl 4; "<h3 class="; dq; "section-title"; dq; ">Чек-лист</h3>";
            nl 4; checklist;
            nl 4; "<h3 class="; dq; "section-title"; dq; ">Хайлайты</h3>";
            nl 4; highlights;
            nl 4; "<h3 class="; dq; "section-title"; dq; ">Стенограмма</h3>";
            nl 4; segments;
            nl 2 ]).

(** ** The page *)

Record Page := mkPage {
  statusEl : string;            (* statusEl.textContent *)
  result_hidden : bool;         (* resultEl.classList contains "hidden" *)
  result_innerHTML : string;    (* resultEl.innerHTML *)
  awaiting : nat;
  requests : list Request;
  console : list Error
}.

Definition M (A : Type) : Type := Page -> result A * Page.
Definition ret {A} (a : A) : M A := fun p => (Ok a, p).
Definition seq {A B} (c : M A) (k : A -> M B) : M B :=
  fun p => match c p with
           | (Ok a, p') => k a p'
           | (Throw e, p') => (Throw e, p')
           end.
Definition lift {A} (r : result A) : M A := fun p => (r, p).
Definition modify (f : Page -> Page) : M unit := fun p => (Ok tt, f p).

Notation "x <~ c ;; k" := (seq c (fun x => k))
  (at level 61, c at next level, right associativity).
Notation "c >> k" := (seq c (fun _ => k))
  (at level 61, right associativity).

Definition set_status (s : string) : M unit :=
  modify (fun p => mkPage s (result_hidden p) (result_innerHTML p) (awaiting p)
                          (requests p) (console p)).

Definition set_result (hidden : bool) (html : string) : M unit :=
  modify (fun p => mkPage (statusEl p) hidden html (awaiting p) (requests p) (console p)).

Definition fetch (r : Request) : M unit :=
  modify (fun p => mkPage (statusEl p) (result_hidden p) (result_innerHTML p)
                          (S (awaiting p)) (requests p ++ [r])%list (console p)).

Definition console_error (e : Error) : M unit :=
  modify (fun p => mkPage (statusEl p) (result_hidden p) (result_innerHTML p)
                          (awaiting p) (requests p) (console p ++ [e])%list).

(** [renderResult]: the markup is assigned, then the class [hidden] is
    removed. *)
Definition renderResult (data : value) : M unit :=
  html <~ lift (result_markup data) ;;
  fun p => set_result false html p.

(** The [submit] listener up to [await fetch(...)]. *)
Definition on_submit (files : list File) (checked : bool) : M unit :=
  match files with
  | [] => set_status "Выберите аудиофайл"
  | file :: _ =>
      set_status "Анализируем звонок..." >>
      set_result true "" >>
      fetch (mkRequest "/api/analyze" "POST"
               [ ("file", FileValue file);
                 ("consent", TextValue (if checked then "true" else "false")) ])
  end.

(** [const { data } = ...]. *)
Definition destructure_data (v : value) : result value :=
  match v with
  | Undefined => Throw (TypeError "Cannot destructure property 'data' of undefined")
  | Null => Throw (TypeError "Cannot destructure property 'data' of null")
  | _ => get v "data"
  end.

(** The body of the [try] block, resumed with the settled [fetch]. *)
Definition analyze_try (outcome : result Response) : M unit :=
  response <~ lift outcome ;;
  (if ok response then ret tt
   else
     let error :=
       match json response with
       | Ok v => v
       | Throw _ => Obj []          (* [.catch(() => ({}))] *)
       end in
     lift (detail <- get error "detail" ;;
           msg <- ToString (detail ||| Str "Ошибка анализа") ;;
           Throw (new_Error msg))) >>
  answer <~ lift (json response) ;;
  data <~ lift (destructure_data answer) ;;
  renderResult data >>
  set_status "Готово".

Definition on_settled (outcome : result Response) : M unit :=
  fun p =>
    match analyze_try outcome p with
    | (Ok _, p) => (Ok tt, p)
    | (Throw error, p) => (console_error error >> set_status (message error)) p
    end.

Inductive Event :=
| Submit (files : list File) (checked : bool)
| Settled (outcome : result Response).

Definition run (c : M unit) (p : Page) : Page := snd (c p).

(** Nothing in this script disables the submit button: every submission of
    the form reaches the listener. *)
Definition step (ev : Event) (p : Page) : Page :=
  match ev with
  | Submit files checked => run (on_submit files checked) p
  | Settled outcome =>
      match awaiting p with
      | O => p
      | S n =>
          run (on_settled outcome)
              (mkPage (statusEl p) (result_hidden p) (result_innerHTML p) n
                      (requests p) (console p))
      end
  end.

Definition steps (evs : list Event) (p : Page) : Page :=
  fold_left (fun p ev => step ev p) evs p.

(** The page before anything was submitted.  The markup that gives the
    status line and the result area their first content is not among the
    sources; they are taken empty. *)
Definition initial : Page := mkPage "" true "" 0 [] [].

End UploadForm.

(* ===================================================================== *)
(** * Vocabulary of the statements *)
(* ===================================================================== *)

Module Shows.
Import JS AnalyzeForm.

(** A row of the score card: a label, a bar holding one fill scaled
    horizontally from the left to a fraction equal to [fraction], and a
    value text. *)
Definition score_row (row : Node) (label : string) (fraction : Q) (text : string) : Prop :=
  exists fill f,
    row = mkNode "div" "score-row" "" []
            [ mkNode "span" "score-label" label [] [];
              mkNode "div" "score-bar" "" [] [fill];
              mkNode "span" "score-value" text [] [] ] /\
    fill = mkNode "div" "score-bar__fill" ""
             [ ("transform", "scaleX(" ++ Number_toString f ++ ")");
               ("transformOrigin", "left") ] [] /\
    (num_to_Q f == fraction)%Q.

(** The numbers on which the decimal arithmetic of this model is the
    arithmetic of the engine: zero, and the decimals of at most 15
    significant digits whose magnitude lies between [10 ^ -300] and
    [10 ^ 12].  Such a decimal is the one the engine prints for the binary64
    value it holds for it, and that value scaled by ten or by a hundred
    lies on the same side of every half-integer as the scaled decimal does,
    unless the scaled decimal is a half-integer itself. *)
Definition ordinary (n : number) : bool :=
  ((mantissa n =? 0)
   || ((Z.abs (mantissa n) <? 10 ^ 15)
       && num_ltb (mkNumber 1 (-300)) (mkNumber (Z.abs (mantissa n)) (exponent n))
       && num_ltb (mkNumber (Z.abs (mantissa n)) (exponent n)) (mkNumber 1 12)))%bool.

(** [|v| * 10 ^ f]. *)
Definition scaled (v : number) (f : nat) : Q :=
  num_to_Q (mkNumber (Z.abs (mantissa v)) (exponent v + Z.of_nat f)).

(** [text] writes [v] with [f] decimals: a minus sign for a negative number,
    an integer part, a point and [f] digits, which together are an integer
    within one half of [|v| * 10 ^ f].  Where two integers are that near
    (the decimal is a tie) either may be written: the engine decides by the
    binary64 value. *)
Definition written (f : nat) (v : number) (text : string) : Prop :=
  exists int_ frac,
    text = (if mantissa v <? 0 then "-" else "")
             ++ digits_string int_ ++ "." ++ digits_string frac /\
    int_ <> [] /\ List.length frac = f /\
    Forall (fun d => 0 <= d <= 9) (int_ ++ frac) /\
    (Qabs (inject_Z (of_digits (int_ ++ frac)) - scaled v f) <= 1 # 2)%Q.

(** The score card holds the three named scores, in this order; the value
    of each ordinary score is written with two decimals. *)
Definition score_card (p : Page) (e c s : number) : Prop :=
  exists re rc rs te tc ts,
    children scoreCardEl p = [re; rc; rs] /\
    score_row re "Эмпатия" (spec_fill_fraction (num_to_Q e)) te /\
    score_row rc "Комплаенс" (spec_fill_fraction (num_to_Q c)) tc /\
    score_row rs "Структура" (spec_fill_fraction (num_to_Q s)) ts /\
    (ordinary e = true -> written 2 e te) /\
    (ordinary c = true -> written 2 c tc) /\
    (ordinary s = true -> written 2 s ts).

(** A way to read a filled fraction off the markup of a score card of
    [web/frontend/app.js] that agrees with the specified fraction. *)
Definition markup_fraction (bar : string -> Q) : Prop :=
  forall (title : string) (n : number) (html : string),
    UploadForm.renderScoreCard title (Num n) = Ok html ->
    (bar html == spec_fill_fraction (num_to_Q n))%Q.

(** A submission that violates a precondition: no file selected, or the
    first selected file larger than 100 MiB. *)
Definition invalid (files : list File) : Prop :=
  match files with
  | [] => True
  | file :: _ => 100 * 1024 * 1024 < size file
  end.

(** The message [analyze-form] shows for an invalid submission. *)
Definition validation_message (files : list File) : string :=
  match files with
  | [] => "Выберите аудиофайл"
  | _ => "Файл больше 100 МБ"
  end.

(** A row of the summary. *)
Definition summary_row (label text : string) : Node :=
  mkNode "div" "summary-item" "" []
    [ mkNode "span" "summary-item__label" label [] [];
      mkNode "span" "summary-item__value" text [] [] ].








(** The placeholder of an empty section. *)
Definition placeholder (text : string) : Node := mkNode "p" "empty" text [] [].

(** A value that is not a container: absent, [null], a boolean, a number or
    a string. *)
Definition plain (v : value) : bool :=
  match v with
  | Arr _ | Obj _ => false
  | _ => true
  end.

Definition is_number (v : value) : bool :=
  match v with
  | Num _ => true
  | _ => false
  end.

(** An object whose fields [keys] are plain when present. *)
Definition record_with (keys : list string) (v : value) : bool :=
  match v with
  | Obj props => forallb (fun k => plain (lookup k props)) keys
  | _ => false
  end.

(** The items of the three lists of a report, as the data model types
    them. *)
Definition checklist_item : value -> bool :=
  record_with ["id"; "score"; "max"; "reason"; "evidence"; "ts"].

Definition highlight : value -> bool :=
  record_with ["type"; "quote"; "ts"].

Definition segment (v : value) : bool :=
  (record_with ["speaker"; "text"] v
   && match v with
      | Obj props => is_number (lookup "start" props) && is_number (lookup "end" props)
      | _ => false
      end)%bool.

(** A section renderer for a list: the placeholder alone for an absent or
    empty list, and otherwise one element per item, made by [card], in the
    order of the items. *)
Definition list_section (render : value -> M unit) (c : Container) (note : string)
    (card : value -> result Node) (well_formed : value -> bool) : Prop :=
  (forall p, render Undefined p = (Ok tt, set_children c [placeholder note] p)) /\
  (forall p, render (Arr []) p = (Ok tt, set_children c [placeholder note] p)) /\
  (forall p items,
      items <> [] ->
      forallb well_formed items = true ->
      exists nodes,
        render (Arr items) p = (Ok tt, set_children c nodes p) /\
        Forall2 (fun item node => card item = Ok node) items nodes).

(** The submit guard: either nothing is in flight and the submit button is
    enabled, or exactly one request is in flight and the button is
    disabled. *)
Definition guarded (p : Page) : Prop :=
  (awaiting p = 0%nat /\ submitBtn_disabled p = false) \/
  (awaiting p = 1%nat /\ submitBtn_disabled p = true).

(** What rendering and status updates leave alone: the network and the
    submit button. *)
Definition kept (p p' : Page) : Prop :=
  awaiting p' = awaiting p /\ requests p' = requests p /\
  submitBtn_disabled p' = submitBtn_disabled p.

Definition frame {A} (c : M A) : Prop := forall p, kept p (snd (c p)).

End Shows.

(* ===================================================================== *)
(** * Vocabulary of the proofs about JSON texts *)
(* ===================================================================== *)

Module Grammar.
Import JS.

Definition digit (d : Z) : Prop := 0 <= d <= 9.

















End Grammar.

(* ===================================================================== *)
(** * Vocabulary of the statements about the rest of the front-ends *)
(* ===================================================================== *)

Module Behaviour.
Import JS.

(** ** The front-end of [analyze-form] *)

(** What a renderer does to the page: it replaces the content of a
    container, or reveals the results section. *)
Inductive write :=
| Fill (c : AnalyzeForm.Container) (nodes : list AnalyzeForm.Node)
| Reveal.

Definition apply (w : write) (p : AnalyzeForm.Page) : AnalyzeForm.Page :=
  match w with
  | Fill c nodes => AnalyzeForm.set_children c nodes p
  | Reveal => AnalyzeForm.set_hidden false p
  end.

Definition put (ws : list write) (p : AnalyzeForm.Page) : AnalyzeForm.Page :=
  fold_left (fun p w => apply w p) ws p.

Definition same_container (a b : AnalyzeForm.Container) : bool :=
  match a, b with
  | AnalyzeForm.summaryEl, AnalyzeForm.summaryEl
  | AnalyzeForm.scoreCardEl, AnalyzeForm.scoreCardEl
  | AnalyzeForm.operationalEl, AnalyzeForm.operationalEl
  | AnalyzeForm.checklistEl, AnalyzeForm.checklistEl
  | AnalyzeForm.highlightsEl, AnalyzeForm.highlightsEl
  | AnalyzeForm.transcriptEl, AnalyzeForm.transcriptEl => true
  | _, _ => false
  end.

(** The content of container [c] after the writes [ws], from content [d]. *)
Definition final (c : AnalyzeForm.Container) (ws : list write)
    (d : list AnalyzeForm.Node) : list AnalyzeForm.Node :=
  fold_left (fun d w => match w with
                        | Fill c' nodes => if same_container c' c then nodes else d
                        | Reveal => d
                        end) ws d.

(** Whether the results section is hidden after the writes [ws]. *)
Definition veiled (ws : list write) (h : bool) : bool :=
  fold_left (fun h w => match w with Reveal => false | Fill _ _ => h end) ws h.

(** A statement that does to every page what the writes [ws] do, with
    outcome [r]. *)
Definition puts (m : AnalyzeForm.M unit) (r : result unit) (ws : list write) : Prop :=
  forall p, m p = (r, put ws p).

(** A renderer of one container: whatever the page, it leaves the same
    elements in [c] and nothing else changed. *)
Definition fills (c : AnalyzeForm.Container) (m : AnalyzeForm.M unit) : Prop :=
  exists r nodes, puts m r [Fill c nodes].

(** The elements a loop appends before it ends or fails, [f] giving the
    elements of one item. *)
Fixpoint gather {A} (f : A -> result (list AnalyzeForm.Node)) (items : list A)
    : result unit * list AnalyzeForm.Node :=
  match items with
  | [] => (Ok tt, [])
  | x :: rest =>
      match f x with
      | Ok nodes => let (r, more) := gather f rest in (r, nodes ++ more)%list
      | Throw e => (Throw e, [])
      end
  end.

(** The settlements that deliver a report: status 2xx and a body that
    parses. *)
Definition delivered (outcome : result Response) : option value :=
  match outcome with
  | Ok (mkResponse true (Ok payload)) => Some payload
  | _ => None
  end.

(** The text the [catch] block of [analyze-form] shows for an exception. *)
Definition error_text (e : Error) : string :=
  if is_empty (message e) then "Ошибка при анализе" else message e.

(** What the [catch] and [finally] blocks of [analyze-form] leave of a page
    for an exception [e]. *)
Definition reported (e : Error) (p : AnalyzeForm.Page) : AnalyzeForm.Page :=
  AnalyzeForm.set_disabled false
    (AnalyzeForm.set_statusEl (error_text e, "error")
       (AnalyzeForm.set_outputs (AnalyzeForm.downloads p) (AnalyzeForm.windows p)
          (AnalyzeForm.console p ++ [e])%list p)).


(** A request as [analyze-form] may issue it. *)
Definition analyze_request (r : Request) : Prop :=
  url r = "/api/analyze" /\ method r = "POST" /\
  (exists file, field "audio" (body r) = [FileValue file] /\
                size file <= 100 * 1024 * 1024) /\
  (field "consent" (body r) = [] \/ field "consent" (body r) = [TextValue "true"]).

(** A number below [10 ^ 21] in absolute value, which [toFixed] writes in
    positional notation. *)
Definition positional (n : number) : bool :=
  num_ltb (mkNumber (Z.abs (mantissa n)) (exponent n)) (mkNumber 1 21).

(** The sections of a report that [render] hands to a renderer. *)
Definition section_keys : list string :=
  ["scores"; "operational"; "checklist"; "highlights"; "transcript"].

(** The row of a score of zero: an empty bar and the text [0.00]. *)
Definition zero_score_row (label : string) : AnalyzeForm.Node :=
  AnalyzeForm.mkNode "div" "score-row" "" []
    [ AnalyzeForm.mkNode "span" "score-label" label [] [];
      AnalyzeForm.mkNode "div" "score-bar" "" []
        [ AnalyzeForm.mkNode "div" "score-bar__fill" ""
            [("transform", "scaleX(0)"); ("transformOrigin", "left")] [] ];
      AnalyzeForm.mkNode "span" "score-value" "0.00" [] [] ].

(** A term and its definition, as [renderOperational] lays them out. *)
Definition metric (label text : string) : list AnalyzeForm.Node :=
  [ AnalyzeForm.mkNode "dt" "" label [] []; AnalyzeForm.mkNode "dd" "" text [] [] ].

(** ** The front-end of [web/frontend/app.js] *)

(** What [escapeHtml] makes of one character. *)
Definition entity (a : ascii) : string :=
  if Ascii.eqb a UploadForm.amp then "&amp;"
  else if Ascii.eqb a UploadForm.lt then "&lt;"
  else if Ascii.eqb a UploadForm.gt then "&gt;"
  else if Ascii.eqb a dquote then "&quot;"
  else if Ascii.eqb a UploadForm.apos then "&#039;"
  else String a "".

(** A text escaped in one pass, character by character. *)
Fixpoint escape_each (s : string) : string :=
  match s with
  | "" => ""
  | String a rest => entity a ++ escape_each rest
  end.

(** A text with none of the five characters [escapeHtml] replaces. *)
Definition clean (s : string) : bool :=
  negb (occurs UploadForm.amp s || occurs UploadForm.lt s || occurs UploadForm.gt s
        || occurs dquote s || occurs UploadForm.apos s).

(** A list renderer of [app.js]: the note alone for an empty list, and
    otherwise the rows of the items, in order, inside [around]. *)
Definition table_section (render : value -> result string) (note : string)
    (row : value -> result string) (around : string -> string)
    (well_formed : value -> bool) : Prop :=
  render (Arr []) = Ok (UploadForm.muted note) /\
  (forall items,
      items <> [] ->
      forallb well_formed items = true ->
      exists rows,
        Forall2 (fun item text => row item = Ok text) items rows /\
        render (Arr items) = Ok (around (cat rows))).

(** The submissions of a trace that select a file. *)
Definition with_file (ev : UploadForm.Event) : bool :=
  match ev with
  | UploadForm.Submit (_ :: _) _ => true
  | _ => false
  end.

End Behaviour.

(* ===================================================================== *)
(** * Facts about the platform *)
(* ===================================================================== *)

Section StringFacts.
Import JS.

Lemma occurs_append (c : ascii) (s t : string) :
  occurs c (s ++ t) = (occurs c s || occurs c t)%bool.
Proof.
  induction s as [|a s IH]; simpl; [reflexivity|].
  now rewrite IH, orb_assoc.
Qed.

(** Replacing [c] by a text without [c] leaves no [c]. *)
Lemma occurs_replace_same (c : ascii) (by_ s : string) :
  occurs c by_ = false -> occurs c (replace c by_ s) = false.
Proof.
  intros Hby. induction s as [|a s IH]; simpl; [reflexivity|].
  destruct (Ascii.eqb a c) eqn:E.
  - now rewrite occurs_append, Hby, IH.
  - simpl. now rewrite E, IH.
Qed.

(** Replacing another character by a text without [c] introduces no [c]. *)
Lemma occurs_replace_other (c a : ascii) (by_ s : string) :
  occurs c by_ = false -> occurs c s = false ->
  occurs c (replace a by_ s) = false.
Proof.
  intros Hby. induction s as [|b s IH]; simpl; [reflexivity|].
  intros H. apply orb_false_iff in H as [Hb Hs].
  destruct (Ascii.eqb b a).
  - now rewrite occurs_append, Hby, IH.
  - simpl. now rewrite Hb, IH.
Qed.

(** Nothing to replace, nothing changed. *)
Lemma replace_absent (c : ascii) (by_ s : string) :
  occurs c s = false -> replace c by_ s = s.
Proof.
  induction s as [|a s IH]; simpl; [reflexivity|].
  intros H. apply orb_false_iff in H as [Ha Hs].
  now rewrite Ha, IH.
Qed.

Lemma escape_text_no_dquote (s : string) :
  occurs dquote (UploadForm.escape_text s) = false.
Proof.
  unfold UploadForm.escape_text.
  apply occurs_replace_other; [reflexivity|].
  apply occurs_replace_same. reflexivity.
Qed.

End StringFacts.

Section NumberFacts.
Import JS.

Lemma ten_pos (e : Z) : (0 < inject_Z 10 ^ e)%Q.
Proof. apply Qpower_0_lt. reflexivity. Qed.

(** Scaling the mantissa up and the exponent down keeps the value. *)
Lemma num_to_Q_scaled (m e k : Z) :
  0 <= k ->
  (inject_Z (m * 10 ^ k) * inject_Z 10 ^ (e - k) == inject_Z m * inject_Z 10 ^ e)%Q.
Proof.
  intros Hk.
  rewrite inject_Z_mult, Zpower_Qpower by assumption.
  rewrite <- Qmult_assoc, <- Qpower_plus by discriminate.
  now replace (k + (e - k)) with e by lia.
Qed.

Lemma align_spec (a b : number) :
  let e := Z.min (exponent a) (exponent b) in
  (num_to_Q a == inject_Z (fst (align a b)) * inject_Z 10 ^ e)%Q /\
  (num_to_Q b == inject_Z (snd (align a b)) * inject_Z 10 ^ e)%Q.
Proof.
  unfold align, num_to_Q; cbn [fst snd]; split.
  - set (k := exponent a - Z.min (exponent a) (exponent b)).
    replace (Z.min (exponent a) (exponent b)) with (exponent a - k) by (unfold k; lia).
    symmetry; apply num_to_Q_scaled; unfold k; lia.
  - set (k := exponent b - Z.min (exponent a) (exponent b)).
    replace (Z.min (exponent a) (exponent b)) with (exponent b - k) by (unfold k; lia).
    symmetry; apply num_to_Q_scaled; unfold k; lia.
Qed.

(** The comparison of the model is the comparison of the rationals. *)
Lemma num_ltb_spec (a b : number) :
  num_ltb a b = true <-> (num_to_Q a < num_to_Q b)%Q.
Proof.
  destruct (align_spec a b) as [Ha Hb].
  unfold num_ltb. destruct (align a b) as [x y]; cbn [fst snd] in *.
  rewrite Ha, Hb, Qmult_lt_r by apply ten_pos.
  rewrite Z.ltb_lt. rewrite Zlt_Qlt. reflexivity.
Qed.

Lemma num_ltb_false (a b : number) :
  num_ltb a b = false <-> (num_to_Q b <= num_to_Q a)%Q.
Proof.
  rewrite <- Bool.not_true_iff_false, num_ltb_spec.
  split; [apply Qnot_lt_le | apply Qle_not_lt].
Qed.

Lemma num_to_Q_zero : (num_to_Q zero == 0)%Q.
Proof. reflexivity. Qed.

Lemma num_to_Q_one : (num_to_Q one == 1)%Q.
Proof. reflexivity. Qed.

(** [Math.max(0, Math.min(1, v))] is the clamp of the specification. *)
Lemma clamp_spec (n : number) :
  (num_to_Q (Math_max zero (Math_min one n))
   == AnalyzeForm.spec_fill_fraction (num_to_Q n))%Q.
Proof.
  unfold AnalyzeForm.spec_fill_fraction, Math_max, Math_min.
  destruct (num_ltb n one) eqn:H1.
  - apply num_ltb_spec in H1. rewrite num_to_Q_one in H1.
    rewrite (Q.min_r 1 (num_to_Q n)) by now apply Qlt_le_weak.
    destruct (num_ltb zero n) eqn:H0.
    + apply num_ltb_spec in H0. rewrite num_to_Q_zero in H0.
      now rewrite Q.max_r by now apply Qlt_le_weak.
    + apply num_ltb_false in H0. rewrite num_to_Q_zero in H0.
      now rewrite Q.max_l.
  - apply num_ltb_false in H1. rewrite num_to_Q_one in H1.
    rewrite (Q.min_l 1 (num_to_Q n)) by assumption.
    replace (num_ltb zero one) with true by reflexivity.
    rewrite num_to_Q_one. now rewrite Q.max_r.
Qed.

End NumberFacts.

Section Digits.
Import JS Grammar.

Lemma of_digits_snoc (ds : list Z) (d : Z) :
  of_digits (ds ++ [d]) = of_digits ds * 10 + d.
Proof. unfold of_digits. now rewrite fold_left_app. Qed.

(** What [to_digits_aux] puts in front of its accumulator. *)
Lemma to_digits_aux_spec (fuel : nat) :
  forall n acc,
    0 <= n < 10 ^ Z.of_nat (S fuel) ->
    exists ds,
      to_digits_aux (S fuel) n acc = (ds ++ acc)%list /\
      of_digits ds = n /\ Forall digit ds /\ ds <> [] /\
      (0 < n -> hd 0 ds <> 0) /\ last ds 0 = n mod 10.
Proof.
  induction fuel as [|fuel IH]; intros n acc Hn.
  - change (10 ^ Z.of_nat 1) with 10 in Hn.
    exists [n]. cbn [to_digits_aux].
    replace (n <? 10) with true by (symmetry; apply Z.ltb_lt; lia).
    repeat split; cbn; try lia.
    + repeat constructor; lia.
    + discriminate.
    + now rewrite Z.mod_small by lia.
  - cbn [to_digits_aux]. destruct (Z.ltb_spec n 10) as [Hlt|Hge].
    + exists [n]. repeat split; cbn; try lia.
      * repeat constructor; lia.
      * discriminate.
      * now rewrite Z.mod_small by lia.
    + destruct (IH (n / 10) (n mod 10 :: acc)) as (ds & E & Hv & Hd & Hne & Hhd & _).
      { split; [apply Z.div_pos; lia|].
        apply Z.div_lt_upper_bound; [lia|].
        rewrite Nat2Z.inj_succ, Z.pow_succ_r in Hn by lia. lia. }
      exists (ds ++ [n mod 10])%list.
      rewrite <- app_assoc. split; [exact E|].
      split; [rewrite of_digits_snoc, Hv; symmetry; rewrite Z.mul_comm;
              apply Z.div_mod; lia|].
      split.
      { apply Forall_app; split; [exact Hd|].
        constructor; [|constructor].
        pose proof (Z.mod_pos_bound n 10). unfold digit. lia. }
      split; [now destruct ds|].
      split; [|apply last_last].
      intros _. destruct ds as [|d ds]; [congruence|].
      apply Hhd. apply Z.div_str_pos. lia.
Qed.

Lemma to_digits_spec (n : Z) :
  0 <= n ->
  of_digits (to_digits n) = n /\ Forall digit (to_digits n) /\ to_digits n <> [] /\
  (0 < n -> hd 0 (to_digits n) <> 0) /\ last (to_digits n) 0 = n mod 10.
Proof.
  intros Hn. unfold to_digits.
  destruct (to_digits_aux_spec (Z.to_nat (Z.log2 n)) n []) as (ds & E & H).
  { split; [exact Hn|].
    rewrite Nat2Z.inj_succ, Z2Nat.id by apply Z.log2_nonneg.
    destruct (Z.eq_dec n 0) as [->|Hnz]; [reflexivity|].
    apply Z.lt_le_trans with (2 ^ Z.succ (Z.log2 n)).
    - apply Z.log2_spec. lia.
    - apply Z.pow_le_mono_l. pose proof (Z.log2_nonneg n). lia. }
  rewrite E, app_nil_r. exact H.
Qed.










End Digits.

Section Formatting.
Import JS Grammar.

(** [round_scaled x f] is [|x| * 10 ^ f] when that is an integer, and
    otherwise the integer [n] with [n - 1/2 <= |x| * 10 ^ f < n + 1/2]. *)
Lemma round_scaled_nearest (x : number) (f : Z) :
  let a := Z.abs (mantissa x) in
  let sh := exponent x + f in
  0 <= round_scaled x f /\
  (0 <= sh -> round_scaled x f = a * 10 ^ sh) /\
  (sh < 0 ->
   let d := 10 ^ (- sh) in
   2 * d * round_scaled x f <= 2 * a + d < 2 * d * (round_scaled x f + 1)).
Proof.
  intros a sh. unfold round_scaled. fold a. fold sh.
  destruct (Z.leb_spec 0 sh) as [Hsh|Hsh].
  - split; [|split; [reflexivity | lia]].
    apply Z.mul_nonneg_nonneg; [apply Z.abs_nonneg | apply Z.pow_nonneg; lia].
  - assert (Hd : 0 < 10 ^ (- sh)) by (apply Z.pow_pos_nonneg; lia).
    assert (Ha : 0 <= a) by apply Z.abs_nonneg.
    split; [apply Z.div_pos; lia|]. split; [lia|]. intros _.
    cbv zeta.
    pose proof (Z.mul_div_le (2 * a + 10 ^ (- sh)) (2 * 10 ^ (- sh)) ltac:(lia)).
    pose proof (Z.mul_succ_div_gt (2 * a + 10 ^ (- sh)) (2 * 10 ^ (- sh)) ltac:(lia)).
    lia.
Qed.

Lemma of_digits_leading_zeros (z : nat) (ds : list Z) :
  of_digits (repeat 0 z ++ ds) = of_digits ds.
Proof. induction z as [|z IH]; [reflexivity | exact IH]. Qed.

(** Below [10 ^ 21], [toFixed] with [f > 0] writes a sign for a negative
    number, an integer part, a point and exactly [f] decimals; the digits
    are those of [round_scaled]. *)
Lemma toFixed_decimals (x : number) (f : nat) :
  num_ltb (mkNumber (Z.abs (mantissa x)) (exponent x)) (mkNumber 1 21) = true ->
  (0 < f)%nat ->
  exists int_ frac,
    toFixed x f
    = (if mantissa x <? 0 then "-" else "")
        ++ digits_string int_ ++ "." ++ digits_string frac /\
    int_ <> [] /\ List.length frac = f /\
    Forall digit (int_ ++ frac) /\
    of_digits (int_ ++ frac) = round_scaled x (Z.of_nat f).
Proof.
  intros Hlt Hf. unfold toFixed. rewrite Hlt. cbn [negb].
  destruct (round_scaled_nearest x (Z.of_nat f)) as (Hn & _).
  destruct (to_digits_spec _ Hn) as (Hv & Hd & Hne & _).
  remember (to_digits (round_scaled x (Z.of_nat f))) as m eqn:Em. clear Em.
  destruct f as [|f']; [lia|].
  set (f := S f') in *.
  set (m' := if Nat.leb (List.length m) f
             then (repeat 0 (f + 1 - List.length m) ++ m)%list else m).
  assert (Hlen : (f < List.length m')%nat).
  { unfold m'. destruct (Nat.leb_spec (List.length m) f) as [H|H]; [|exact H].
    rewrite length_app, repeat_length. lia. }
  assert (Hd' : Forall digit m').
  { unfold m'. destruct (Nat.leb (List.length m) f); [|exact Hd].
    apply Forall_app. split; [|exact Hd].
    apply Forall_forall. intros d Hin. apply repeat_spec in Hin. subst.
    unfold digit. lia. }
  assert (Hv' : of_digits m' = round_scaled x (Z.of_nat f)).
  { unfold m'. destruct (Nat.leb (List.length m) f); [|exact Hv].
    now rewrite of_digits_leading_zeros. }
  exists (firstn (List.length m' - f) m'), (skipn (List.length m' - f) m').
  split; [reflexivity|]. split; [|split; [|split]].
  - intros H. apply (f_equal (@List.length Z)) in H.
    rewrite length_firstn in H. cbn [List.length] in H. lia.
  - rewrite length_skipn. lia.
  - now rewrite firstn_skipn.
  - now rewrite firstn_skipn.
Qed.

End Formatting.


(* ===================================================================== *)
(** * [JSON.parse] after [JSON.stringify] *)
(* ===================================================================== *)

Section NumberRoundTrip.
Import JS Grammar.












Lemma string_app_assoc (a b c : string) : (a ++ b) ++ c = a ++ b ++ c.
Proof. induction a as [|x a IH]; cbn; [reflexivity | now rewrite IH]. Qed.







End NumberRoundTrip.

Section StringRoundTrip.
Import JS Grammar.




End StringRoundTrip.

Section ValueRoundTrip.
Import JS Grammar.
















Lemma length_append (a b : string) :
  String.length (a ++ b) = (String.length a + String.length b)%nat.
Proof. induction a as [|c a IH]; cbn; [reflexivity | now rewrite IH]. Qed.































End ValueRoundTrip.

Section ParserOutput.
Import JS Grammar.

Lemma span_digits_digit (s : string) : Forall digit (fst (span_digits s)).
Proof.
  induction s as [|a s IH]; cbn [span_digits]; [constructor|].
  destruct (is_digit a) eqn:Ha; [|constructor].
  destruct (span_digits s) as [ds r]. cbn [fst] in *. constructor; [|exact IH].
  unfold is_digit in Ha. apply andb_prop in Ha as [H1 H2].
  apply Nat.leb_le in H1, H2. unfold digit, digit_val. lia.
Qed.

Lemma of_digits_last (ds : list Z) :
  Forall digit ds -> ds <> [] -> of_digits ds mod 10 = last ds 0.
Proof.
  intros Hd Hne. rewrite (app_removelast_last 0 Hne) in Hd |- * at 1.
  apply Forall_app in Hd as [_ Hd]. inversion Hd as [|x l Hx _]; subst.
  rewrite of_digits_snoc, Z.add_comm, Z_mod_plus_full.
  apply Z.mod_small. unfold digit in Hx. lia.
Qed.

Lemma strip_leading_digit (ds : list Z) :
  Forall digit ds -> Forall digit (strip_leading_zeros ds).
Proof.
  induction 1 as [|d ds Hd Hds IH]; cbn; [constructor|].
  destruct d; [exact IH | |]; now constructor.
Qed.

Lemma strip_leading_head (ds : list Z) : hd 1 (strip_leading_zeros ds) <> 0.
Proof.
  induction ds as [|d ds IH]; cbn; [lia|].
  destruct d; [exact IH | |]; cbn; lia.
Qed.

Lemma strip_trailing_digit (ds : list Z) :
  Forall digit ds -> Forall digit (strip_trailing_zeros ds).
Proof.
  intros H. unfold strip_trailing_zeros.
  apply Forall_rev, strip_leading_digit, Forall_rev, H.
Qed.

Lemma strip_trailing_last (ds : list Z) :
  strip_trailing_zeros ds <> [] -> last (strip_trailing_zeros ds) 0 <> 0.
Proof.
  unfold strip_trailing_zeros.
  pose proof (strip_leading_head (rev ds)) as H.
  destruct (strip_leading_zeros (rev ds)) as [|d t]; [cbn; congruence|].
  intros _. cbn [rev]. rewrite last_last. exact H.
Qed.

Lemma make_number_canonical (neg : bool) (I F : list Z) (E : Z) :
  Forall digit I -> Forall digit F -> canonical (make_number neg I F E) = true.
Proof.
  intros HI HF. unfold make_number.
  pose proof (strip_trailing_last (strip_leading_zeros (I ++ F))) as Hnz.
  assert (Hs : Forall digit (strip_trailing_zeros (strip_leading_zeros (I ++ F)))).
  { apply strip_trailing_digit, strip_leading_digit, Forall_app. now split. }
  remember (strip_trailing_zeros (strip_leading_zeros (I ++ F))) as s eqn:Es.
  clear Es.
  destruct (Z.eqb_spec (of_digits s) 0) as [_|Hm]; [reflexivity|].
  assert (Hne : s <> []) by (intros E0; subst s; now apply Hm).
  pose proof (of_digits_last s Hs Hne) as Hlast.
  specialize (Hnz Hne).
  unfold canonical. cbn [mantissa exponent].
  destruct neg.
  - replace (- of_digits s =? 0) with false by (symmetry; apply Z.eqb_neq; lia).
    apply negb_true_iff, Z.eqb_neq. intros H0.
    apply Z.mod_opp_l_z in H0; [|lia]. rewrite Z.opp_involutive in H0. lia.
  - replace (of_digits s =? 0) with false by (symmetry; apply Z.eqb_neq; lia).
    apply negb_true_iff, Z.eqb_neq. lia.
Qed.

Lemma parse_number_canonical (s : string) (n : number) (r : string) :
  parse_number s = Some (n, r) -> canonical n = true.
Proof.
  unfold parse_number. destruct (read_sign false s) as [neg s1].
  unfold parse_unsigned.
  pose proof (span_digits_digit s1) as HI.
  destruct (span_digits s1) as [I s2]. cbn [fst] in HI.
  assert (G : forall F s3, Forall digit F ->
                match read_exponent s3 with
                | Some (e, s4) => Some (make_number neg I F e, s4)
                | None => None
                end = Some (n, r) -> canonical n = true).
  { intros F s3 HF H. destruct (read_exponent s3) as [[e s4]|]; [|discriminate].
    injection H as <- _. now apply make_number_canonical. }
  assert (G' : match
                 match after "." s2 with
                 | Some r0 =>
                     match span_digits r0 with
                     | ([], _) => None
                     | (f, r') => Some (f, r')
                     end
                 | None => Some ([], s2)
                 end
               with
               | Some (f, s3) =>
                   match read_exponent s3 with
                   | Some (e, s4) => Some (make_number neg I f e, s4)
                   | None => None
                   end
               | None => None
               end = Some (n, r) -> canonical n = true).
  { destruct (after "." s2) as [r0|].
    - pose proof (span_digits_digit r0) as HF.
      destruct (span_digits r0) as [[|f F] r']; [discriminate|].
      apply G. exact HF.
    - apply G. constructor. }
  destruct I as [|[| |] [|]]; try discriminate; exact G'.
Qed.

(** Keys after [set_prop]. *)
Lemma set_prop_decoded (k : string) (v : value) (props : list (string * value)) :
  decoded v = true -> decoded (Obj props) = true ->
  decoded (Obj (set_prop k v props)) = true.
Proof.
  intros Hv. cbn [decoded].
  induction props as [|[k' v'] props IH]; intros H.
  - cbn. now rewrite Hv.
  - cbn [map fst distinct forallb snd] in H.
    apply andb_prop in H as [Hd Hf]. apply andb_prop in Hd as [Hk' Hd].
    apply andb_prop in Hf as [Hv' Hf].
    cbn [set_prop]. destruct (String.eqb_spec k' k) as [->|Hkk].
    + cbn [map fst distinct forallb snd]. now rewrite Hk', Hd, Hv, Hf.
    + assert (IH' := IH ltac:(now rewrite Hd, Hf)).
      apply andb_prop in IH' as [IHd IHf].
      cbn [map fst distinct forallb snd]. rewrite IHd, IHf, Hv'.
      rewrite !andb_true_r. apply negb_true_iff.
      apply negb_true_iff in Hk'. clear -Hk' Hkk.
      induction props as [|[k2 v2] props IHp]; cbn [set_prop map fst existsb] in *.
      * apply orb_false_iff. split; [now apply String.eqb_neq | reflexivity].
      * apply orb_false_iff in Hk' as [H1 H2].
        destruct (String.eqb k2 k); cbn [map fst existsb]; rewrite H1; cbn [orb];
          [exact H2 | now apply IHp].
Qed.

Lemma build_object_decoded (members : list (string * value)) :
  forallb (fun kv => decoded (snd kv)) members = true ->
  decoded (build_object members) = true.
Proof.
  unfold build_object.
  enough (G : forall acc,
             decoded (Obj acc) = true ->
             forallb (fun kv => decoded (snd kv)) members = true ->
             decoded (Obj (fold_left (fun ps kv => set_prop (fst kv) (snd kv) ps)
                                     members acc)) = true)
    by (apply G; reflexivity).
  induction members as [|[k v] members IH]; intros acc Hacc H; [exact Hacc|].
  cbn [forallb snd] in H. apply andb_prop in H as [Hv H].
  cbn [fold_left fst snd]. apply IH; [|exact H]. now apply set_prop_decoded.
Qed.

(** Every value the parser returns is a decoded value. *)
Lemma parse_decoded (fuel : nat) :
  (forall s v r, parse_value fuel s = Some (v, r) -> decoded v = true) /\
  (forall s vs r, parse_elements fuel s = Some (vs, r) -> forallb decoded vs = true) /\
  (forall s ms r, parse_members fuel s = Some (ms, r) ->
                  forallb (fun kv => decoded (snd kv)) ms = true).
Proof.
  induction fuel as [|fuel (IHv & IHe & IHm)]; [repeat split; discriminate|].
  split; [|split].
  - intros s v r. cbn [parse_value].
    destruct (skip_ws s) as [|c rest]; [discriminate|].
    destruct (Ascii.eqb c "n");
      [destruct (strip_prefix "ull" rest); [|discriminate];
       now intros [= <- _]|].
    destruct (Ascii.eqb c "t");
      [destruct (strip_prefix "rue" rest); [|discriminate];
       now intros [= <- _]|].
    destruct (Ascii.eqb c "f");
      [destruct (strip_prefix "alse" rest); [|discriminate];
       now intros [= <- _]|].
    destruct (Ascii.eqb c dquote);
      [destruct (parse_string_body rest) as [[str r']|]; [|discriminate];
       now intros [= <- _]|].
    destruct (Ascii.eqb c "[").
    { destruct (after "]" (skip_ws rest)); [now intros [= <- _]|].
      destruct (parse_elements fuel rest) as [[items r']|] eqn:E; [|discriminate].
      intros [= <- _]. cbn [decoded]. exact (IHe _ _ _ E). }
    destruct (Ascii.eqb c "{").
    { destruct (after "}" (skip_ws rest)); [now intros [= <- _]|].
      destruct (parse_members fuel rest) as [[ms r']|] eqn:E; [|discriminate].
      intros [= <- _]. apply build_object_decoded. exact (IHm _ _ _ E). }
    destruct (parse_number (String c rest)) as [[n r']|] eqn:E; [|discriminate].
    intros [= <- _]. cbn [decoded]. exact (parse_number_canonical _ _ _ E).
  - intros s vs r. cbn [parse_elements].
    destruct (parse_value fuel s) as [[v r1]|] eqn:Ev; [|discriminate].
    pose proof (IHv _ _ _ Ev) as Hv.
    destruct (skip_ws r1) as [|c r2]; [discriminate|].
    destruct c as [[] [] [] [] [] [] [] []]; try discriminate.
    + intros [= <- _]. cbn. now rewrite Hv.
    + destruct (parse_elements fuel r2) as [[vs' r3]|] eqn:Ee; [|discriminate].
      intros [= <- _]. cbn [forallb]. now rewrite Hv, (IHe _ _ _ Ee).
  - intros s ms r. cbn [parse_members].
    destruct (skip_ws s) as [|q r0]; [discriminate|].
    destruct (Ascii.eqb q dquote); [|discriminate].
    destruct (parse_string_body r0) as [[k r1]|]; [|discriminate].
    destruct (skip_ws r1) as [|c r2]; [discriminate|].
    destruct c as [[] [] [] [] [] [] [] []]; try discriminate.
    destruct (parse_value fuel r2) as [[v r3]|] eqn:Ev; [|discriminate].
    pose proof (IHv _ _ _ Ev) as Hv.
    destruct (skip_ws r3) as [|c r4]; [discriminate|].
    destruct c as [[] [] [] [] [] [] [] []]; try discriminate.
    + intros [= <- _]. cbn. now rewrite Hv.
    + destruct (parse_members fuel r4) as [[ms' r5]|] eqn:Em; [|discriminate].
      intros [= <- _]. cbn [forallb snd]. now rewrite Hv, (IHm _ _ _ Em).
Qed.

(** What [response.json()] resolves to is a decoded value. *)
Lemma JSON_parse_decoded (text : string) (v : value) :
  JSON_parse text = Ok v -> decoded v = true.
Proof.
  unfold JSON_parse.
  destruct (parse_value (S (String.length text)) text) as [[v' rest]|] eqn:E;
    [|discriminate].
  destruct (is_empty (skip_ws rest)); [|discriminate].
  intros [= <-]. exact (proj1 (parse_decoded _) _ _ _ E).
Qed.

End ParserOutput.

(* ===================================================================== *)
(** * Facts about the front-ends *)
(* ===================================================================== *)

Section ScoreRows.
Import JS AnalyzeForm.

Lemma score_row_shows (label : string) (n : number) :
  exists row,
    AnalyzeForm.score_row label (Num n) = Ok row /\
    Shows.score_row row label (spec_fill_fraction (num_to_Q n)) (toFixed n 2).
Proof.
  eexists; split; [reflexivity|].
  do 2 eexists. split; [reflexivity|]. split; [reflexivity|].
  apply clamp_spec.
Qed.

End ScoreRows.

Section ListRendering.
Import JS AnalyzeForm.

Lemma children_set_children (c : Container) (l : list Node) (p : Page) :
  children c (set_children c l p) = l.
Proof. destruct c; reflexivity. Qed.

Lemma set_children_twice (c : Container) (l l' : list Node) (p : Page) :
  set_children c l' (set_children c l p) = set_children c l' p.
Proof. destruct c; reflexivity. Qed.

Lemma set_children_same (c : Container) (p : Page) :
  set_children c (children c p) p = p.
Proof. destruct c, p; reflexivity. Qed.

(** A loop that appends one element per item. *)
Lemma for_each_appends (c : Container) (card : value -> result Node)
    (items : list value) (nodes : list Node) :
  Forall2 (fun item node => card item = Ok node) items nodes ->
  forall p,
    for_each items (fun item => node <~ lift (card item) ;; appendChild c [node]) p
    = (Ok tt, set_children c (children c p ++ nodes)%list p).
Proof.
  induction 1 as [|item node items nodes Hcard _ IH]; intros p.
  - cbn. now rewrite app_nil_r, set_children_same.
  - cbn [for_each]. unfold seq at 1. unfold seq at 1, lift at 1.
    rewrite Hcard. unfold appendChild at 1, modify at 1.
    rewrite IH, children_set_children, set_children_twice, <- app_assoc.
    reflexivity.
Qed.

Lemma ToString_plain (v : value) :
  Shows.plain v = true -> exists s, ToString v = Ok s.
Proof. destruct v as [| |[]| | | |]; intros H; try discriminate H; eexists; reflexivity. Qed.

Lemma plain_or_else (a b : value) :
  Shows.plain a = true -> Shows.plain b = true -> Shows.plain (a ||| b) = true.
Proof. unfold or_else. now destruct (ToBoolean a). Qed.

Lemma plain_nullish (a b : value) :
  Shows.plain a = true -> Shows.plain b = true -> Shows.plain (a ?? b) = true.
Proof. now destruct a. Qed.

Lemma template_plain (ps : list piece) :
  Forall (fun x => match x with Lit _ => True | Val v => Shows.plain v = true end) ps ->
  exists s, template ps = Ok s.
Proof.
  induction 1 as [|[s|v] ps Hx _ [t IH]]; cbn [template].
  - eexists; reflexivity.
  - rewrite IH. eexists; reflexivity.
  - destruct (ToString_plain v Hx) as [s ->]. rewrite IH. eexists; reflexivity.
Qed.

Create HintDb plain.
#[local] Hint Resolve plain_or_else plain_nullish : plain.

Ltac plain_fields H :=
  cbn [Shows.record_with forallb] in H;
  repeat (apply andb_prop in H; let F := fresh "F" in destruct H as [F H]).

Lemma checklist_card_succeeds (item : value) :
  Shows.checklist_item item = true -> exists node, checklist_card item = Ok node.
Proof.
  destruct item as [| | | | | |props]; try discriminate.
  unfold Shows.checklist_item. intros H. plain_fields H.
  unfold checklist_card. cbn [get bind].
  edestruct template_plain as [title ->].
  { repeat constructor; auto with plain. }
  edestruct (ToString_plain (lookup "reason" props ||| Str "—")) as [reason ->];
    [auto with plain|]. cbn [bind].
  destruct (ToBoolean (lookup "evidence" props)).
  - cbn [bind]. edestruct template_plain as [ev ->].
    { repeat constructor; auto with plain. }
    eexists; reflexivity.
  - eexists; reflexivity.
Qed.

Lemma highlight_card_succeeds (item : value) :
  Shows.highlight item = true -> exists node, highlight_card item = Ok node.
Proof.
  destruct item as [| | | | | |props]; try discriminate.
  unfold Shows.highlight. intros H. plain_fields H.
  unfold highlight_card. cbn [get bind].
  edestruct (ToString_plain (lookup "type" props ||| Str "Событие")) as [t ->];
    [auto with plain|].
  edestruct (ToString_plain (lookup "quote" props ||| Str "—")) as [q ->];
    [auto with plain|].
  edestruct (ToString_plain (lookup "ts" props ||| Str "")) as [ts ->];
    [auto with plain|].
  eexists; reflexivity.
Qed.

Lemma transcript_row_succeeds (seg : value) :
  Shows.segment seg = true -> exists node, transcript_row seg = Ok node.
Proof.
  destruct seg as [| | | | | |props]; try discriminate.
  unfold Shows.segment. intros H. apply andb_prop in H as [H Hn].
  plain_fields H. apply andb_prop in Hn as [Hs He].
  unfold transcript_row. cbn [get bind].
  edestruct (ToString_plain (lookup "speaker" props ||| Str "?")) as [sp ->];
    [auto with plain|].
  destruct (lookup "start" props); try discriminate Hs.
  destruct (lookup "end" props); try discriminate He.
  edestruct (ToString_plain (lookup "text" props ||| Str "")) as [tx ->];
    [auto with plain|].
  eexists; reflexivity.
Qed.

(** Every well-formed item has its element. *)
Lemma cards_exist (card : value -> result Node) (well_formed : value -> bool) :
  (forall item, well_formed item = true -> exists node, card item = Ok node) ->
  forall items,
    forallb well_formed items = true ->
    exists nodes, Forall2 (fun item node => card item = Ok node) items nodes.
Proof.
  intros Hcard. induction items as [|item items IH]; cbn [forallb]; intros H.
  - exists []. constructor.
  - apply andb_prop in H as [Hi Hr].
    destruct (Hcard item Hi) as [node Hn]. destruct (IH Hr) as [nodes Hns].
    exists (node :: nodes). now constructor.
Qed.

Lemma no_length_nonempty (items : list value) :
  items <> [] -> no_length (Arr items) = Ok false.
Proof.
  destruct items as [|x items]; [congruence|]. intros _.
  unfold no_length. cbn [get bind String.eqb Ascii.eqb Bool.eqb ToBoolean mantissa
                         num_of_Z List.length].
  replace (Z.of_nat (S (List.length items)) =? 0) with false; [reflexivity|].
  symmetry. apply Z.eqb_neq. lia.
Qed.

End ListRendering.

Section Frames.
Import JS AnalyzeForm Shows.

Lemma kept_refl p : kept p p.
Proof. now repeat split. Qed.

Lemma kept_trans p q r : kept p q -> kept q r -> kept p r.
Proof. unfold kept. intuition congruence. Qed.

Lemma frame_ret {A} (a : A) : frame (ret a).
Proof. intros p. apply kept_refl. Qed.

Lemma frame_lift {A} (r : result A) : frame (lift r).
Proof. intros p. apply kept_refl. Qed.

Lemma frame_seq {A B} (c : M A) (k : A -> M B) :
  frame c -> (forall a, frame (k a)) -> frame (seq c k).
Proof.
  intros Hc Hk p. unfold seq. specialize (Hc p).
  destruct (c p) as [[a|e] p']; cbn [snd] in *; [|exact Hc].
  eapply kept_trans; [exact Hc | apply Hk].
Qed.

Lemma frame_for_each {A} (l : list A) (body : A -> M unit) :
  (forall a, frame (body a)) -> frame (for_each l body).
Proof.
  intros Hb. induction l as [|a l IH]; cbn [for_each].
  - apply frame_ret.
  - apply frame_seq; [apply Hb | intros _; exact IH].
Qed.

Lemma frame_setStatus (m t : string) : frame (setStatus m t).
Proof. intros p. now repeat split. Qed.

Lemma frame_clearContainer (c : Container) : frame (clearContainer c).
Proof. intros p. destruct c; now repeat split. Qed.

Lemma frame_appendChild (c : Container) (kids : list Node) : frame (appendChild c kids).
Proof. intros p. destruct c; now repeat split. Qed.

Lemma frame_set_hidden (b : bool) : frame (modify (set_hidden b)).
Proof. intros p. now repeat split. Qed.

Lemma frame_set_lastPayload (v : value) : frame (modify (set_lastPayload v)).
Proof. intros p. now repeat split. Qed.

Lemma frame_console_error (e : Error) : frame (console_error e).
Proof. intros p. now repeat split. Qed.

Ltac framed :=
  repeat first
    [ apply frame_seq | apply frame_for_each | apply frame_lift | apply frame_ret
    | apply frame_setStatus | apply frame_clearContainer | apply frame_appendChild
    | apply frame_set_hidden | apply frame_set_lastPayload | apply frame_console_error
    | match goal with
      | |- forall _, _ => intro
      | |- frame (if ?b then _ else _) => destruct b
      | |- frame (let (_, _) := ?x in _) => destruct x
      | |- frame (match ?x with _ => _ end) => destruct x
      end ].

Lemma frame_render (payload : value) : frame (render payload).
Proof.
  unfold render, renderSummary, renderScores, renderOperational, renderChecklist,
    renderHighlights, renderTranscript.
  framed.
Qed.

Lemma frame_analyze_try (outcome : result Response) : frame (analyze_try outcome).
Proof.
  unfold analyze_try. framed; apply frame_render.
Qed.

Lemma frame_downloadJson : frame downloadJson.
Proof.
  intros p. unfold downloadJson.
  destruct (negb (ToBoolean (lastPayload p))); [now repeat split|].
  unfold seq, lift. destruct (callId <- _ ;; _); cbn; now repeat split.
Qed.

Lemma frame_openHtml : frame openHtml.
Proof.
  intros p. unfold openHtml, seq, lift.
  destruct (get_opt (lastPayload p) "reportHtml") as [h|e]; [|apply kept_refl].
  destruct (negb (ToBoolean h)); [now repeat split|].
  destruct (ToString h); cbn; now repeat split.
Qed.

(** A settled request leaves the network alone and enables the button. *)
Lemma on_settled_enables (outcome : result Response) (p : Page) :
  let p' := run (on_settled outcome) p in
  fst (on_settled outcome p) = Ok tt /\
  submitBtn_disabled p' = false /\
  awaiting p' = awaiting p /\ requests p' = requests p.
Proof.
  unfold run, on_settled.
  pose proof (frame_analyze_try outcome p) as H.
  destruct (analyze_try outcome p) as [[[]|e] p1]; cbn [snd] in H.
  - destruct H as (H1 & H2 & _). cbn. auto.
  - pose proof (frame_seq (console_error e)
                  (fun _ => setStatus (if is_empty (message e) then "Ошибка при анализе"
                                       else message e) "error")
                  (frame_console_error e) (fun _ => frame_setStatus _ _) p1) as H'.
    destruct (seq _ _ p1) as [r p2]. cbn [snd] in H'.
    destruct H as (H1 & H2 & _), H' as (H1' & H2' & _).
    cbn. repeat split; congruence.
Qed.

(** A valid submission, accepted. *)
Lemma on_submit_accepts (file : File) (rest : list File) (checked : bool) (p : Page) :
  size file <= 100 * 1024 * 1024 ->
  let p' := run (on_submit (file :: rest) checked) p in
  submitBtn_disabled p' = true /\
  awaiting p' = S (awaiting p) /\
  requests p'
  = (requests p
     ++ [mkRequest "/api/analyze" "POST"
           ([("audio", FileValue file)]
            ++ (if checked then [("consent", TextValue "true")] else []))])%list.
Proof.
  intros H. apply Z.ltb_ge in H.
  unfold run, on_submit, file_limit. rewrite H. now repeat split.
Qed.

Lemma step_guarded (ev : Event) (p : Page) :
  Shows.guarded p -> Shows.guarded (step ev p).
Proof.
  intros G. destruct ev as [files checked|outcome| |]; cbn [step].
  - destruct (submitBtn_disabled p) eqn:D; [exact G|].
    destruct G as [[A _]|[_ D']]; [|congruence].
    destruct files as [|file rest].
    + left. now split.
    + destruct (Z.leb_spec (size file) (100 * 1024 * 1024)) as [Hle|Hgt].
      * destruct (on_submit_accepts file rest checked p Hle) as (Hd & Ha & _).
        right. split; [congruence | exact Hd].
      * unfold run, on_submit, file_limit.
        apply Z.ltb_lt in Hgt. rewrite Hgt. left. now split.
  - destruct (awaiting p) as [|n] eqn:A; [exact G|].
    destruct (on_settled_enables outcome (set_network n (requests p) p))
      as (_ & Hd & Ha & _).
    left. split; [|exact Hd]. rewrite Ha. cbn.
    destruct G as [[A' _]|[A' _]]; congruence.
  - destruct (frame_downloadJson p) as (Ha & _ & Hd).
    unfold Shows.guarded, run. now rewrite Ha, Hd.
  - destruct (frame_openHtml p) as (Ha & _ & Hd).
    unfold Shows.guarded, run. now rewrite Ha, Hd.
Qed.

Lemma steps_guarded (evs : list Event) (p : Page) :
  Shows.guarded p -> Shows.guarded (steps evs p).
Proof.
  revert p. induction evs as [|ev evs IH]; intros p G; [exact G|].
  apply IH, step_guarded, G.
Qed.

End Frames.

Section Decimals.
Import JS.

Lemma ordinary_positional (n : number) :
  Shows.ordinary n = true ->
  num_ltb (mkNumber (Z.abs (mantissa n)) (exponent n)) (mkNumber 1 21) = true.
Proof.
  unfold Shows.ordinary. intros H. apply orb_prop in H as [H|H].
  - apply Z.eqb_eq in H. rewrite H. apply num_ltb_spec.
    unfold num_to_Q. cbn [mantissa exponent Z.abs].
    rewrite Qmult_0_l. reflexivity.
  - apply andb_prop in H as [H H12]. apply num_ltb_spec in H12. apply num_ltb_spec.
    eapply Qlt_trans; [exact H12|]. reflexivity.
Qed.

(** [round_scaled x f] is within one half of [|x| * 10 ^ f]. *)
Lemma round_scaled_near (x : number) (f : nat) :
  (Qabs (inject_Z (round_scaled x (Z.of_nat f)) - Shows.scaled x f) <= 1 # 2)%Q.
Proof.
  destruct (round_scaled_nearest x (Z.of_nat f)) as (_ & Hup & Hdown).
  cbv zeta in Hup, Hdown. unfold Shows.scaled, num_to_Q. cbn [mantissa exponent].
  set (a := Z.abs (mantissa x)) in *. set (sh := exponent x + Z.of_nat f) in *.
  destruct (Z.le_gt_cases 0 sh) as [Hsh|Hsh].
  - rewrite (Hup Hsh), inject_Z_mult, Zpower_Qpower by assumption.
    setoid_replace (inject_Z a * inject_Z 10 ^ sh - inject_Z a * inject_Z 10 ^ sh)%Q
      with 0%Q by ring.
    discriminate.
  - specialize (Hdown Hsh). set (n := round_scaled x (Z.of_nat f)) in *.
    assert (Hd : 0 < 10 ^ (- sh)) by (apply Z.pow_pos_nonneg; lia).
    set (d := 10 ^ (- sh)) in *.
    assert (E : (inject_Z 10 ^ sh == / inject_Z d)%Q).
    { replace sh with (- - sh) by lia. rewrite Qpower_opp.
      unfold d. rewrite Zpower_Qpower by lia. reflexivity. }
    rewrite E.
    assert (Hq : (0 < inject_Z d)%Q) by (change 0%Q with (inject_Z 0); rewrite <- Zlt_Qlt; exact Hd).
    assert (Hq2 : (0 <= / (2 * inject_Z d))%Q).
    { apply Qinv_le_0_compat. apply Qmult_le_0_compat; [discriminate|].
      now apply Qlt_le_weak. }
    assert (Hnz : ~ (inject_Z d == 0)%Q)
      by (intros H0; rewrite H0 in Hq; discriminate Hq).
    apply Qabs_Qle_condition. split.
    + apply Qle_minus_iff.
      setoid_replace (inject_Z n - inject_Z a * / inject_Z d + - - (1 # 2))%Q
        with ((inject_Z (2 * d * n + - (2 * a) + d)) * / (2 * inject_Z d))%Q.
      * apply Qmult_le_0_compat; [|exact Hq2].
        change 0%Q with (inject_Z 0). rewrite <- Zle_Qle. lia.
      * rewrite !inject_Z_plus, inject_Z_opp, !inject_Z_mult.
        change (inject_Z 2) with 2%Q. field. exact Hnz.
    + apply Qle_minus_iff.
      setoid_replace ((1 # 2) + - (inject_Z n - inject_Z a * / inject_Z d))%Q
        with ((inject_Z (2 * a + d + - (2 * d * n))) * / (2 * inject_Z d))%Q.
      * apply Qmult_le_0_compat; [|exact Hq2].
        change 0%Q with (inject_Z 0). rewrite <- Zle_Qle. lia.
      * rewrite !inject_Z_plus, inject_Z_opp, !inject_Z_mult.
        change (inject_Z 2) with 2%Q. field. exact Hnz.
Qed.

(** Within the ordinary numbers [toFixed] writes its argument. *)
Lemma toFixed_written (n : number) (f : nat) :
  Shows.ordinary n = true -> (0 < f)%nat -> Shows.written f n (toFixed n f).
Proof.
  intros Ho Hf.
  destruct (toFixed_decimals n f (ordinary_positional n Ho) Hf)
    as (int_ & frac & E & Hne & Hlen & Hd & Hv).
  exists int_, frac. repeat split; try assumption.
  rewrite Hv. apply round_scaled_near.
Qed.

End Decimals.

Section Portable.
Import JS.


End Portable.

(* ===================================================================== *)
(** * The claims *)
(* ===================================================================== *)

Section Scores.
Import JS AnalyzeForm.

(** C1, as amended.  In the front-end of [analyze-form], for all numeric raw
    scores [e], [c], [s] of a scores object, [renderScores] succeeds and
    leaves in the score card one row per named score, whose bar is filled to
    [max(0, min(1, v))] and whose text, for an ordinary [v], writes [v] with
    two decimals; nothing but the score card changes.  In
    [web/frontend/app.js], [renderScoreCard] produces a heading and the raw
    value written the same way, and no bar. *)
Theorem renderScores_clamps_bar (p : Page) (props : list (string * value))
    (e c s : number) :
  lookup "empathy" props = Num e ->
  lookup "compliance" props = Num c ->
  lookup "structure" props = Num s ->
  (exists rows,
      renderScores (Obj props) p = (Ok tt, set_children scoreCardEl rows p) /\
      Shows.score_card (set_children scoreCardEl rows p) e c s) /\
  (forall title n,
      exists text,
        (Shows.ordinary n = true -> Shows.written 2 n text) /\
        UploadForm.renderScoreCard title (Num n)
        = Ok (cat [ nl 4; "<div class="; dq; "score-card"; dq; ">";
                    nl 6; "<h3>"; UploadForm.escape_text title; "</h3>";
                    nl 6; "<div class="; dq; "value"; dq; ">"; text; "</div>";
                    nl 4; "</div>"; nl 2 ])).
Proof.
  intros He Hc Hs. split.
  - destruct (score_row_shows "Эмпатия" e) as (re & Ee & Se).
    destruct (score_row_shows "Комплаенс" c) as (rc & Ec & Sc).
    destruct (score_row_shows "Структура" s) as (rs & Es & Ss).
    exists [re; rc; rs]. split.
    + unfold renderScores, seq, lift, clearContainer, appendChild, modify, for_each, ret.
      cbn [default_param get bind]. rewrite He, Hc, Hs. cbn [bind].
      rewrite Ee, Ec, Es. destruct p; reflexivity.
    + exists re, rc, rs, (toFixed e 2), (toFixed c 2), (toFixed s 2).
      split; [apply children_set_children|].
      split; [exact Se|]. split; [exact Sc|]. split; [exact Ss|].
      split; [|split]; intros Ho; apply toFixed_written; (exact Ho || lia).
  - intros title n. exists (toFixed n 2). split; [|reflexivity].
    intros Ho. apply toFixed_written; [exact Ho | lia].
Qed.

Lemma renderScores_clamps_bar_witness :
  (exists rows,
      renderScores (Obj [ ("empathy", Num (mkNumber 73 (-2)));
                          ("compliance", Num (mkNumber 15 (-1)));
                          ("structure", Num (mkNumber (-2) (-1))) ]) initial
      = (Ok tt, set_children scoreCardEl rows initial) /\
      Shows.score_card (set_children scoreCardEl rows initial)
                       (mkNumber 73 (-2)) (mkNumber 15 (-1)) (mkNumber (-2) (-1))).
Proof.
  apply (renderScores_clamps_bar initial _ (mkNumber 73 (-2)) (mkNumber 15 (-1))
           (mkNumber (-2) (-1))); reflexivity.
Defined.

(** C1, as stated, fails for [web/frontend/app.js]: no filled fraction can
    be read off its score card, since 0.731 and 0.734 give the same markup. *)
Lemma renderScoreCard_has_no_bar : ~ exists bar, Shows.markup_fraction bar.
Proof.
  intros [bar H].
  pose proof (H "Эмпатия" (mkNumber 731 (-3)) _ eq_refl) as H1.
  pose proof (H "Эмпатия" (mkNumber 734 (-3)) _ eq_refl) as H2.
  assert (E : (spec_fill_fraction (num_to_Q (mkNumber 731 (-3)))
               == spec_fill_fraction (num_to_Q (mkNumber 734 (-3))))%Q).
  { rewrite <- H1. exact H2. }
  vm_compute in E. discriminate E.
Qed.

End Scores.

Section Guard.
Import JS AnalyzeForm Shows.

(** C2, as amended.  In the front-end of [analyze-form], on every page
    reached from the initial one: the submit button is disabled exactly
    while a request is in flight, and at most one is; while one is in
    flight, a submission by the user leaves the page as it is (in
    particular no request is issued); and however the request settles, the
    listener returns normally, the button is enabled again, nothing is in
    flight, and a valid submission is then accepted and issues one request.
    [web/frontend/app.js] has no such guard. *)
Theorem submit_guard (evs : list Event) :
  let p := steps evs initial in
  Shows.guarded p /\
  (awaiting p <> 0%nat ->
   (forall files checked, step (Submit files checked) p = p) /\
   (forall outcome,
       let p' := step (Settled outcome) p in
       submitBtn_disabled p' = false /\ awaiting p' = 0%nat /\
       requests p' = requests p /\
       forall file rest checked,
         size file <= 100 * 1024 * 1024 ->
         exists form,
           requests (step (Submit (file :: rest) checked) p')
           = (requests p' ++ [mkRequest "/api/analyze" "POST" form])%list)).
Proof.
  intros p.
  assert (G : Shows.guarded p) by (apply steps_guarded; left; now split).
  split; [exact G|]. intros Hfl.
  destruct G as [[A _]|[A D]]; [congruence|]. split.
  - intros files checked. cbn [step]. now rewrite D.
  - intros outcome. cbn [step]. rewrite A.
    destruct (on_settled_enables outcome (set_network 0 (requests p) p))
      as (_ & Hd & Ha & Hr).
    repeat split; try assumption.
    intros file rest checked Hsize. cbn [step]. rewrite Hd.
    destruct (on_submit_accepts file rest checked
                (run (on_settled outcome) (set_network 0 (requests p) p)) Hsize)
      as (_ & _ & Hreq).
    eexists. exact Hreq.
Qed.

Lemma submit_guard_witness :
  let p := steps [Submit [mkFile "call.wav" 4096] true] initial in
  awaiting p = 1%nat /\
  step (Submit [mkFile "again.wav" 2048] false) p = p /\
  (forall outcome, submitBtn_disabled (step (Settled outcome) p) = false).
Proof.
  intros p. split; [reflexivity|].
  destruct (submit_guard [Submit [mkFile "call.wav" 4096] true]) as [_ H].
  destruct H as [H1 H2]; [discriminate|].
  split; [apply H1 | intros outcome; apply (H2 outcome)].
Defined.

(** C2, as stated, fails for [web/frontend/app.js]: a second submission
    while the first request is in flight issues a second request. *)
Lemma upload_form_accepts_second_submission :
  let request :=
    mkRequest "/api/analyze" "POST"
      [("file", FileValue (mkFile "call.wav" 4096)); ("consent", TextValue "true")] in
  let p := UploadForm.steps [UploadForm.Submit [mkFile "call.wav" 4096] true]
                            UploadForm.initial in
  UploadForm.awaiting p = 1%nat /\
  UploadForm.requests p = [request] /\
  UploadForm.requests (UploadForm.step (UploadForm.Submit [mkFile "call.wav" 4096] true) p)
  = [request; request].
Proof. repeat split. Qed.

End Guard.

Section Submission.
Import JS.

(** C3, as amended.  In the front-end of [analyze-form], a submission with no
    file selected or with a file larger than 100 MiB ends at once: the
    listener returns normally, the only change to the page is the status
    line, which shows the validation message as an error, and no request is
    recorded.  In [web/frontend/app.js] the same holds for a submission with
    no file selected, and a selected file of any size is sent. *)
Theorem invalid_submission_fails_fast (p : AnalyzeForm.Page) (files : list File)
    (checked : bool) :
  Shows.invalid files ->
  AnalyzeForm.on_submit files checked p
  = (Ok tt, AnalyzeForm.set_statusEl (Shows.validation_message files, "error") p) /\
  AnalyzeForm.requests (AnalyzeForm.step (AnalyzeForm.Submit files checked) p)
  = AnalyzeForm.requests p /\
  AnalyzeForm.awaiting (AnalyzeForm.step (AnalyzeForm.Submit files checked) p)
  = AnalyzeForm.awaiting p /\
  (forall q : UploadForm.Page,
      UploadForm.on_submit [] checked q
      = (Ok tt, UploadForm.mkPage "Выберите аудиофайл" (UploadForm.result_hidden q)
                  (UploadForm.result_innerHTML q) (UploadForm.awaiting q)
                  (UploadForm.requests q) (UploadForm.console q))) /\
  (forall (q : UploadForm.Page) file rest,
      UploadForm.requests (UploadForm.step (UploadForm.Submit (file :: rest) checked) q)
      = (UploadForm.requests q
         ++ [mkRequest "/api/analyze" "POST"
               [ ("file", FileValue file);
                 ("consent", TextValue (if checked then "true" else "false")) ]])%list).
Proof.
  intros Hinv.
  assert (E : AnalyzeForm.on_submit files checked p
              = (Ok tt, AnalyzeForm.set_statusEl
                          (Shows.validation_message files, "error") p)).
  { destruct files as [|file rest]; [reflexivity|].
    unfold Shows.invalid in Hinv. unfold AnalyzeForm.on_submit, AnalyzeForm.file_limit.
    apply Z.ltb_lt in Hinv. now rewrite Hinv. }
  split; [exact E|].
  unfold AnalyzeForm.step, AnalyzeForm.run.
  destruct (AnalyzeForm.submitBtn_disabled p);
    [|rewrite E]; repeat split; try reflexivity;
    intros; destruct q; reflexivity.
Qed.

(** A file of exactly 100 MiB + 1 byte. *)
Lemma invalid_submission_fails_fast_witness :
  AnalyzeForm.on_submit [mkFile "call.wav" (100 * 1024 * 1024 + 1)] true
                        AnalyzeForm.initial
  = (Ok tt, AnalyzeForm.set_statusEl ("Файл больше 100 МБ", "error")
              AnalyzeForm.initial) /\
  AnalyzeForm.requests
    (AnalyzeForm.step
       (AnalyzeForm.Submit [mkFile "call.wav" (100 * 1024 * 1024 + 1)] true)
       AnalyzeForm.initial) = [].
Proof.
  pose proof (invalid_submission_fails_fast AnalyzeForm.initial
                [mkFile "call.wav" (100 * 1024 * 1024 + 1)] true) as H.
  cbn [Shows.invalid size] in H.
  specialize (H ltac:(lia)).
  destruct H as (H1 & H2 & _). split; [exact H1 | exact H2].
Defined.

(** C3, as stated, fails for [web/frontend/app.js]: a file of 100 MiB + 1
    byte is invalid in the sense of the claim, and submitting it issues a
    request. *)
Lemma upload_form_sends_oversized_file :
  Shows.invalid [mkFile "call.wav" (100 * 1024 * 1024 + 1)] /\
  UploadForm.requests
    (UploadForm.step
       (UploadForm.Submit [mkFile "call.wav" (100 * 1024 * 1024 + 1)] false)
       UploadForm.initial)
  = [ mkRequest "/api/analyze" "POST"
        [ ("file", FileValue (mkFile "call.wav" (100 * 1024 * 1024 + 1)));
          ("consent", TextValue "false") ] ].
Proof. split; [reflexivity | reflexivity]. Qed.

(** C7, as amended.  In the front-end of [analyze-form], a valid submission
    issues one request to the analyze endpoint whose form carries the file
    under [audio] and, under [consent], the single value ["true"] when
    consent is checked and nothing at all when it is not.  In
    [web/frontend/app.js] the form of every submission carries a [consent]
    field: ["true"] when checked, ["false"] when not. *)
Theorem consent_field (p : AnalyzeForm.Page) (file : File) (rest : list File)
    (checked : bool) :
  size file <= 100 * 1024 * 1024 ->
  (exists form,
      AnalyzeForm.requests (AnalyzeForm.run (AnalyzeForm.on_submit (file :: rest) checked) p)
      = (AnalyzeForm.requests p ++ [mkRequest "/api/analyze" "POST" form])%list /\
      field "audio" form = [FileValue file] /\
      field "consent" form = if checked then [TextValue "true"] else []) /\
  (forall q : UploadForm.Page,
      exists form,
        UploadForm.requests (UploadForm.run (UploadForm.on_submit (file :: rest) checked) q)
        = (UploadForm.requests q ++ [mkRequest "/api/analyze" "POST" form])%list /\
        field "file" form = [FileValue file] /\
        field "consent" form = [TextValue (if checked then "true" else "false")]).
Proof.
  intros Hsize. split.
  - unfold AnalyzeForm.run, AnalyzeForm.on_submit, AnalyzeForm.file_limit.
    apply Z.ltb_ge in Hsize. rewrite Hsize.
    eexists. split; [reflexivity|]. now destruct checked.
  - intros q. eexists. split; [reflexivity|]. now destruct checked.
Qed.

Lemma consent_field_witness :
  exists form,
    AnalyzeForm.requests
      (AnalyzeForm.run (AnalyzeForm.on_submit [mkFile "call.wav" 4096] false)
                       AnalyzeForm.initial)
    = [mkRequest "/api/analyze" "POST" form] /\
    field "audio" form = [FileValue (mkFile "call.wav" 4096)] /\
    field "consent" form = [].
Proof.
  destruct (consent_field AnalyzeForm.initial (mkFile "call.wav" 4096) [] false)
    as [H _]; [cbn; lia | exact H].
Defined.

(** C7, as stated, fails for [web/frontend/app.js]: with consent not
    checked the form still carries a [consent] field, of value ["false"]. *)
Lemma upload_form_always_sends_consent :
  exists form,
    UploadForm.requests
      (UploadForm.run (UploadForm.on_submit [mkFile "call.wav" 4096] false)
                      UploadForm.initial)
    = [mkRequest "/api/analyze" "POST" form] /\
    field "consent" form = [TextValue "false"].
Proof. eexists. split; reflexivity. Qed.

End Submission.

Section ErrorResponses.
Import JS.

(** C4, at the failing input and around it.  For a settled request with a
    status outside 2xx, in the front-end of [analyze-form]:
    - a body with a [detail] string gives that string as status text (the
      general message when the string is empty);
    - a body without [detail] gives the general message;
    - a body that cannot be parsed gives the message of the parser's
      exception, not a general message;
    in every case the status is of type error, the listener returns
    normally and the submit button is enabled.  [web/frontend/app.js] shows
    its general message for a body that cannot be parsed. *)
Theorem error_response_status (p : AnalyzeForm.Page) :
  (forall detail rest,
      AnalyzeForm.statusEl
        (AnalyzeForm.run
           (AnalyzeForm.on_settled
              (Ok (mkResponse false (Ok (Obj (("detail", Str detail) :: rest)))))) p)
      = (if is_empty detail then "Не удалось выполнить анализ" else detail, "error")) /\
  (forall props,
      lookup "detail" props = Undefined ->
      AnalyzeForm.statusEl
        (AnalyzeForm.run
           (AnalyzeForm.on_settled (Ok (mkResponse false (Ok (Obj props))))) p)
      = ("Не удалось выполнить анализ", "error")) /\
  (forall parser_message,
      AnalyzeForm.statusEl
        (AnalyzeForm.run
           (AnalyzeForm.on_settled
              (Ok (mkResponse false (Throw (SyntaxError parser_message))))) p)
      = (if is_empty parser_message then "Ошибка при анализе" else parser_message,
         "error")) /\
  (forall outcome,
      fst (AnalyzeForm.on_settled outcome p) = Ok tt /\
      AnalyzeForm.submitBtn_disabled (AnalyzeForm.run (AnalyzeForm.on_settled outcome) p)
      = false) /\
  (forall (q : UploadForm.Page) e,
      UploadForm.statusEl
        (UploadForm.run (UploadForm.on_settled (Ok (mkResponse false (Throw e)))) q)
      = "Ошибка анализа").
Proof.
  split; [|split; [|split; [|split]]].
  - intros detail rest. destruct detail; reflexivity.
  - intros props H.
    unfold AnalyzeForm.run, AnalyzeForm.on_settled, AnalyzeForm.analyze_try,
      AnalyzeForm.seq, AnalyzeForm.lift.
    cbn [ok json get bind]. rewrite H. reflexivity.
  - intros m. destruct m; reflexivity.
  - intros outcome. unfold AnalyzeForm.run, AnalyzeForm.on_settled.
    destruct (AnalyzeForm.analyze_try outcome p) as [[[]|e] p'];
      split; reflexivity.
  - intros q e. reflexivity.
Qed.

(** The failing input of C4: a 502 page of a proxy in front of the
    service. *)
Lemma unparseable_error_body_shows_parser_message :
  AnalyzeForm.statusEl
    (AnalyzeForm.steps
       [ AnalyzeForm.Submit [mkFile "call.wav" 4096] true;
         AnalyzeForm.Settled
           (Ok (mkResponse false
                  (Throw (SyntaxError "Unexpected token < in JSON at position 0")))) ]
       AnalyzeForm.initial)
  = ("Unexpected token < in JSON at position 0", "error").
Proof. reflexivity. Qed.

End ErrorResponses.

Section DataExport.
Import JS AnalyzeForm.




(** The example of the specification through the whole workflow: a
    successful analysis of call [call-42], then a click on the export
    button. *)
Lemma export_after_analysis :
  let report :=
    Obj [ ("callId", Str "call-42"); ("lang", Str "ru");
          ("durationSec", Num (mkNumber 1234 (-2)));
          ("scores", Obj [("empathy", Num (mkNumber 73 (-2)))]);
          ("transcript", Arr []) ] in
  let p := steps [ Submit [mkFile "call.wav" 4096] true;
                   Settled (Ok (mkResponse true (Ok report)));
                   ClickDownload ] initial in
  exists text,
    downloads p = [mkDownload "call-42.json" (mkBlob text "application/json")] /\
    JSON_parse text = Ok report.
Proof.
  intros report p.
  exists (match JSON_stringify report 2 with Some s => s | None => "" end).
  split; vm_compute; reflexivity.
Qed.

End DataExport.

Section Lists.
Import JS AnalyzeForm.

(** C6.  Each of [renderChecklist], [renderHighlights] and
    [renderTranscript] leaves in its container exactly one placeholder
    element when the list is absent or empty, and otherwise (for items of
    the shape the data model gives them) one card or row per item, in the
    order of the list. *)
Theorem list_sections :
  Shows.list_section renderChecklist checklistEl "Чек-лист пуст"
                     checklist_card Shows.checklist_item /\
  Shows.list_section renderHighlights highlightsEl "Нет выделенных моментов"
                     highlight_card Shows.highlight /\
  Shows.list_section renderTranscript transcriptEl "Нет сегментов"
                     transcript_row Shows.segment.
Proof.
  repeat apply conj; try (intros p; destruct p; reflexivity).
  - intros p items Hne Hwf.
    destruct (cards_exist _ _ checklist_card_succeeds items Hwf) as [nodes Hn].
    exists nodes. split; [|exact Hn].
    unfold renderChecklist, seq at 1, clearContainer, modify, seq at 1, lift at 1.
    cbn [default_param]. rewrite no_length_nonempty by assumption.
    unfold seq at 1, lift at 1. cbn [iterate].
    now rewrite (for_each_appends _ _ _ _ Hn), children_set_children, set_children_twice.
  - intros p items Hne Hwf.
    destruct (cards_exist _ _ highlight_card_succeeds items Hwf) as [nodes Hn].
    exists nodes. split; [|exact Hn].
    unfold renderHighlights, seq at 1, clearContainer, modify, seq at 1, lift at 1.
    cbn [default_param]. rewrite no_length_nonempty by assumption.
    unfold seq at 1, lift at 1. cbn [iterate].
    now rewrite (for_each_appends _ _ _ _ Hn), children_set_children, set_children_twice.
  - intros p items Hne Hwf.
    destruct (cards_exist _ _ transcript_row_succeeds items Hwf) as [nodes Hn].
    exists nodes. split; [|exact Hn].
    unfold renderTranscript, seq at 1, clearContainer, modify, seq at 1, lift at 1.
    cbn [default_param]. rewrite no_length_nonempty by assumption.
    unfold seq at 1, lift at 1. cbn [iterate].
    now rewrite (for_each_appends _ _ _ _ Hn), children_set_children, set_children_twice.
Qed.

Lemma list_sections_witness :
  let segs :=
    [ Obj [ ("speaker", Str "manager"); ("start", Num zero); ("end", Num (mkNumber 25 (-1)));
            ("text", Str "hello") ];
      Obj [ ("speaker", Str "client"); ("start", Num (mkNumber 25 (-1)));
            ("end", Num (mkNumber 4 0)); ("text", Str "hi") ] ] in
  exists nodes,
    renderTranscript (Arr segs) initial = (Ok tt, set_children transcriptEl nodes initial) /\
    Forall2 (fun item node => transcript_row item = Ok node) segs nodes.
Proof.
  intros segs. destruct list_sections as (_ & _ & _ & _ & H).
  apply (H initial segs); [discriminate | reflexivity].
Defined.

End Lists.

Section Summary.
Import JS AnalyzeForm.




End Summary.

Section Degraded.
Import JS AnalyzeForm.

(** C9, at the failing input.  A transcript whose first segment has no
    [start] makes [renderTranscript] throw; the transcript container is left
    with no element at all, not even the placeholder.  Through [render] and
    the listener, the report of a finished analysis whose segment lacks
    [start] ends as an error status. *)
Theorem renderTranscript_throws_without_start (p : Page)
    (props : list (string * value)) (rest : list value) :
  lookup "start" props = Undefined ->
  exists e,
    renderTranscript (Arr (Obj props :: rest)) p
    = (Throw e, set_children transcriptEl [] p).
Proof.
  intros H.
  unfold renderTranscript, seq, lift, clearContainer, modify.
  cbn [default_param no_length get bind String.eqb Ascii.eqb Bool.eqb ToBoolean
       mantissa num_of_Z List.length negb iterate for_each].
  replace (negb (negb (Z.of_nat (S (List.length rest)) =? 0))) with false
    by (symmetry; apply negb_false_iff, negb_true_iff, Z.eqb_neq; lia).
  unfold transcript_row. cbn [get bind]. rewrite H.
  destruct (ToString (lookup "speaker" props ||| Str "?")) as [s|e];
    cbn [bind call_toFixed]; eexists; reflexivity.
Qed.

Lemma renderTranscript_throws_without_start_witness :
  exists e,
    renderTranscript (Arr [Obj [("speaker", Str "manager"); ("text", Str "hello")]])
                     initial
    = (Throw e, set_children transcriptEl [] initial).
Proof.
  exact (renderTranscript_throws_without_start initial
           [("speaker", Str "manager"); ("text", Str "hello")] [] eq_refl).
Defined.

(** The same input, through the whole workflow: the analysis succeeded, the
    report is complete but for the times of its one segment. *)
Lemma degraded_transcript_fails_analysis :
  let report :=
    Obj [ ("callId", Str "call-42");
          ("transcript", Arr [Obj [("speaker", Str "manager"); ("text", Str "hello")]]) ] in
  let p := steps [ Submit [mkFile "call.wav" 4096] true;
                   Settled (Ok (mkResponse true (Ok report))) ] initial in
  fst (render report initial)
  = Throw (TypeError "Cannot read properties of undefined (reading 'toFixed')") /\
  statusEl p = ("Cannot read properties of undefined (reading 'toFixed')", "error") /\
  children transcriptEl p = [].
Proof. repeat split. Qed.

(** Around the failing input: a report with no field at all renders to the
    end, with a zero for every score and the placeholder in each of the
    three lists. *)
Lemma absent_sections_render :
  let p := run (render (Obj [])) initial in
  fst (render (Obj []) initial) = Ok tt /\
  List.length (children scoreCardEl p) = 3%nat /\
  children checklistEl p = [Shows.placeholder "Чек-лист пуст"] /\
  children highlightsEl p = [Shows.placeholder "Нет выделенных моментов"] /\
  children transcriptEl p = [Shows.placeholder "Нет сегментов"] /\
  results_hidden p = false.
Proof. vm_compute. repeat split. Qed.

End Degraded.

Section Escaping.

(** C10.  [escapeAttribute] and [escapeHtml] are the same function: on every
    input (a string or any other value, which both first convert with
    [String]) they return the same result, because the text returned by
    [escapeHtml] contains no double quote for [escapeAttribute] to replace. *)
Theorem escapeAttribute_is_escapeHtml (v : JS.value) :
  UploadForm.escapeAttribute v = UploadForm.escapeHtml v.
Proof.
  unfold UploadForm.escapeAttribute, UploadForm.escapeHtml.
  destruct (JS.ToString v) as [s|e]; simpl; [|reflexivity].
  now rewrite replace_absent by apply escape_text_no_dquote.
Qed.

End Escaping.

(* ===================================================================== *)
(** * The rest of the front-ends *)
(* ===================================================================== *)

Section Writes.
Import JS AnalyzeForm Behaviour.

Lemma put_app (ws ws' : list write) (p : Page) :
  put (ws ++ ws') p = put ws' (put ws p).
Proof. apply fold_left_app. Qed.

(** The page after some writes, field by field. *)
Lemma put_fields (ws : list write) (p : Page) :
  put ws p
  = mkPage (submitBtn_disabled p) (statusEl p) (veiled ws (results_hidden p))
           (final summaryEl ws (in_summary p)) (final scoreCardEl ws (in_scoreCard p))
           (final operationalEl ws (in_operational p))
           (final checklistEl ws (in_checklist p))
           (final highlightsEl ws (in_highlights p))
           (final transcriptEl ws (in_transcript p))
           (lastPayload p) (awaiting p) (requests p) (downloads p) (windows p)
           (console p).
Proof.
  revert p. induction ws as [|w ws IH]; intros p.
  - destruct p; reflexivity.
  - change (put (w :: ws) p) with (put ws (apply w p)). rewrite IH.
    destruct w as [[] nodes|]; destruct p; reflexivity.
Qed.

Lemma final_twice (c : Container) (ws : list write) (d : list Node) :
  final c ws (final c ws d) = final c ws d.
Proof.
  revert d. induction ws as [|w ws IH]; intros d; [reflexivity|].
  unfold final in *. cbn [fold_left].
  destruct w as [c' nodes|]; [|apply IH].
  destruct (same_container c' c); [reflexivity | apply IH].
Qed.

Lemma veiled_twice (ws : list write) (h : bool) :
  veiled ws (veiled ws h) = veiled ws h.
Proof.
  revert h. induction ws as [|w ws IH]; intros h; [reflexivity|].
  unfold veiled in *. cbn [fold_left].
  destruct w as [c' nodes|]; [apply IH | reflexivity].
Qed.

Lemma put_twice (ws : list write) (p : Page) : put ws (put ws p) = put ws p.
Proof.
  rewrite (put_fields ws (put ws p)), (put_fields ws p). cbn.
  now rewrite !final_twice, veiled_twice.
Qed.

Lemma puts_seq (c : M unit) (k : unit -> M unit) (r : result unit)
    (ws ws' : list write) :
  puts c (Ok tt) ws -> puts (k tt) r ws' -> puts (seq c k) r (ws ++ ws').
Proof.
  intros Hc Hk p. unfold seq. rewrite Hc, Hk. now rewrite put_app.
Qed.

Lemma puts_stop (c : M unit) (k : unit -> M unit) (e : Error) (ws : list write) :
  puts c (Throw e) ws -> puts (seq c k) (Throw e) ws.
Proof. intros Hc p. unfold seq. now rewrite Hc. Qed.

Lemma puts_read {A} (x : result A) (k : A -> M unit) (a : A) (r : result unit)
    (ws : list write) :
  x = Ok a -> puts (k a) r ws -> puts (seq (lift x) k) r ws.
Proof. intros -> Hk p. unfold seq, lift. apply Hk. Qed.

Lemma puts_unread {A} (x : result A) (k : A -> M unit) (e : Error) :
  x = Throw e -> puts (seq (lift x) k) (Throw e) [].
Proof. intros -> p. reflexivity. Qed.

(** A loop that appends the elements of each item. *)
Lemma for_each_gather {A} (c : Container) (f : A -> result (list Node))
    (body : A -> M unit) :
  (forall x p, body x p = seq (lift (f x)) (appendChild c) p) ->
  forall items p,
    for_each items body p
    = (fst (gather f items),
       set_children c (children c p ++ snd (gather f items))%list p).
Proof.
  intros Hb. induction items as [|x items IH]; intros p; cbn [for_each gather].
  - cbn. now rewrite app_nil_r, set_children_same.
  - unfold seq at 1. rewrite Hb. unfold seq, lift. destruct (f x) as [nodes|e].
    + unfold appendChild, modify. rewrite IH, children_set_children, set_children_twice.
      destruct (gather f items) as [r more]. cbn [fst snd]. now rewrite app_assoc.
    + cbn. now rewrite app_nil_r, set_children_same.
Qed.

(** A renderer that clears its container and appends to it in a loop. *)
Lemma fills_loop {A} (c : Container) (f : A -> result (list Node))
    (body : A -> M unit) (items : result (list A)) :
  (forall x p, body x p = seq (lift (f x)) (appendChild c) p) ->
  fills c (clearContainer c >> (xs <~ lift items ;; for_each xs body)).
Proof.
  intros Hb. destruct items as [xs|e].
  - exists (fst (gather f xs)), (snd (gather f xs)). intros p.
    unfold seq, clearContainer, modify, lift.
    rewrite (for_each_gather c f body Hb), children_set_children, set_children_twice.
    reflexivity.
  - exists (Throw e), []. intros p. reflexivity.
Qed.

(** A renderer of a list: the note, or the elements of the items. *)
Lemma fills_list {A} (c : Container) (note : Node) (f : A -> result (list Node))
    (body : A -> M unit) (none : result bool) (items : result (list A)) :
  (forall x p, body x p = seq (lift (f x)) (appendChild c) p) ->
  fills c (clearContainer c >>
           (none <~ lift none ;;
            if none : bool then appendChild c [note]
            else xs <~ lift items ;; for_each xs body)).
Proof.
  intros Hb. destruct none as [[|]|e].
  - exists (Ok tt), [note]. intros p.
    unfold seq, clearContainer, appendChild, modify, lift. cbv beta iota.
    now rewrite children_set_children, set_children_twice.
  - destruct (fills_loop c f body items Hb) as (r & nodes & H).
    exists r, nodes. intros p. rewrite <- H. reflexivity.
  - exists (Throw e), []. intros p. reflexivity.
Qed.

Lemma fills_renderSummary (payload : value) : fills summaryEl (renderSummary payload).
Proof.
  apply (fills_loop summaryEl (fun item => node <- summary_row item ;; Ok [node])).
  intros x p. unfold seq, lift. now destruct (summary_row x).
Qed.

Lemma fills_renderScores (scores : value) : fills scoreCardEl (renderScores scores).
Proof.
  apply (fills_loop scoreCardEl
           (fun item : string * value =>
              node <- AnalyzeForm.score_row (fst item) (snd item) ;; Ok [node])).
  intros [label rawValue] p. unfold seq, lift. cbn [fst snd].
  now destruct (AnalyzeForm.score_row label rawValue).
Qed.

Lemma fills_renderOperational (operational : value) :
  fills operationalEl (renderOperational operational).
Proof.
  apply (fills_loop operationalEl
           (fun item : string * value =>
              text <- ToString (snd item) ;;
              Ok [element "dt" "" (fst item); element "dd" "" text])).
  intros [label v] p. unfold seq, lift. cbn [fst snd]. now destruct (ToString v).
Qed.

Lemma fills_renderChecklist (list_ : value) : fills checklistEl (renderChecklist list_).
Proof.
  apply (fills_list checklistEl _ (fun item => node <- checklist_card item ;; Ok [node])).
  intros x p. unfold seq, lift. now destruct (checklist_card x).
Qed.

Lemma fills_renderHighlights (items : value) : fills highlightsEl (renderHighlights items).
Proof.
  apply (fills_list highlightsEl _ (fun item => node <- highlight_card item ;; Ok [node])).
  intros x p. unfold seq, lift. now destruct (highlight_card x).
Qed.

Lemma fills_renderTranscript (transcript : value) :
  fills transcriptEl (renderTranscript transcript).
Proof.
  apply (fills_list transcriptEl _
           (fun seg => node <- AnalyzeForm.transcript_row seg ;; Ok [node])).
  intros x p. unfold seq, lift. now destruct (AnalyzeForm.transcript_row x).
Qed.

End Writes.

Section Rendering.
Import JS AnalyzeForm Behaviour.

Lemma puts_reveal : puts (modify (set_hidden false)) (Ok tt) [Reveal].
Proof. intros p. reflexivity. Qed.

Lemma puts_got {A} (a : A) (k : A -> M unit) (r : result unit) (ws : list write) :
  puts (k a) r ws -> puts (seq (lift (Ok a)) k) r ws.
Proof. apply puts_read. reflexivity. Qed.

Lemma puts_not_got {A} (e : Error) (k : A -> M unit) :
  puts (seq (lift (Throw e)) k) (Throw e) [].
Proof. apply puts_unread. reflexivity. Qed.

Ltac chain :=
  repeat first
    [ apply puts_stop; eassumption
    | apply puts_not_got
    | apply puts_reveal
    | eapply puts_seq; [eassumption|]
    | apply puts_got ].

Ltac stopped :=
  eexists _, _; split; [chain | split; [discriminate | intros; reflexivity]].

(** What [render] does to a page depends on the report alone.  When it
    succeeds it has written the six containers and revealed the results;
    when it fails it has revealed nothing. *)
Lemma render_puts (payload : value) :
  exists r ws,
    puts (render payload) r ws /\
    (r = Ok tt ->
     exists a b c d e f,
       ws = [ Fill summaryEl a; Fill scoreCardEl b; Fill operationalEl c;
              Fill checklistEl d; Fill highlightsEl e; Fill transcriptEl f; Reveal ]) /\
    (forall e, r = Throw e -> forall h, veiled ws h = h).
Proof.
  unfold render.
  destruct (fills_renderSummary payload) as ([[]|?] & ? & ?); [|stopped].
  destruct (get payload "scores") as [scores|?]; [|stopped].
  destruct (fills_renderScores scores) as ([[]|?] & ? & ?); [|stopped].
  destruct (get payload "operational") as [operational|?]; [|stopped].
  destruct (fills_renderOperational operational) as ([[]|?] & ? & ?); [|stopped].
  destruct (get payload "checklist") as [checklist|?]; [|stopped].
  destruct (fills_renderChecklist checklist) as ([[]|?] & ? & ?); [|stopped].
  destruct (get payload "highlights") as [highlights|?]; [|stopped].
  destruct (fills_renderHighlights highlights) as ([[]|?] & ? & ?); [|stopped].
  destruct (get payload "transcript") as [transcript|?]; [|stopped].
  destruct (fills_renderTranscript transcript) as ([[]|?] & ? & ?); [|stopped].
  eexists _, _. split; [chain | split; [|discriminate]].
  intros _. do 6 eexists. reflexivity.
Qed.

(** The outcome of [render] does not depend on the page. *)
Lemma render_outcome (payload : value) (p q : Page) :
  fst (render payload p) = fst (render payload q).
Proof.
  destruct (render_puts payload) as (r & ws & H & _). now rewrite !H.
Qed.

(** [render] leaves the held report, the status line, the button and what
    left the page as they are. *)
Lemma render_keeps (payload : value) (p : Page) :
  let p' := run (render payload) p in
  lastPayload p' = lastPayload p /\ statusEl p' = statusEl p /\
  downloads p' = downloads p /\ windows p' = windows p /\ console p' = console p.
Proof.
  destruct (render_puts payload) as (r & ws & H & _).
  unfold run. rewrite H, put_fields. cbn. now repeat split.
Qed.

End Rendering.

Section Reports.
Import JS AnalyzeForm Behaviour.

(** X1.  Rendering a report twice is the same as rendering it once: every
    renderer first clears its container, so [render] has the same outcome
    on every page and a second run changes nothing. *)
Theorem render_twice (payload : value) (p q : Page) :
  fst (render payload p) = fst (render payload q) /\
  run (render payload) (run (render payload) p) = run (render payload) p.
Proof.
  split; [apply render_outcome|].
  destruct (render_puts payload) as (r & ws & H & _).
  unfold run. rewrite !H. cbn [snd]. apply put_twice.
Qed.

(** X2.  When [render] succeeds, nothing of what the six containers held
    before is left: their content is the same whatever the page was, and
    the results section is visible. *)
Theorem render_leaves_nothing_stale (payload : value) (p q : Page) (c : Container) :
  fst (render payload p) = Ok tt ->
  children c (run (render payload) p) = children c (run (render payload) q) /\
  results_hidden (run (render payload) p) = false.
Proof.
  destruct (render_puts payload) as (r & ws & H & Hok & _).
  unfold run. rewrite !H. cbn [fst snd]. intros ->.
  destruct (Hok eq_refl) as (n1 & n2 & n3 & n4 & n5 & n6 & ->).
  rewrite !put_fields. destruct c; split; reflexivity.
Qed.

Lemma render_leaves_nothing_stale_witness :
  let report := Obj [("callId", Str "call-42"); ("lang", Str "ru")] in
  let old := run (render (Obj [("callId", Str "call-41"); ("partial", Bool true)])) initial in
  children summaryEl (run (render report) old)
  = children summaryEl (run (render report) initial) /\
  results_hidden (run (render report) old) = false.
Proof.
  intros report old.
  exact (render_leaves_nothing_stale report old initial summaryEl eq_refl).
Defined.

End Reports.

Section Settlements.
Import JS AnalyzeForm Behaviour.

(** A settlement that delivers no report ends in the [catch] block before
    anything was rendered. *)
Lemma analyze_try_undelivered (outcome : result Response) (p : Page) :
  delivered outcome = None -> exists e, analyze_try outcome p = (Throw e, p).
Proof.
  unfold analyze_try, seq, lift.
  destruct outcome as [[[] [payload|e]]|e]; cbn [delivered ok json]; try discriminate;
    intros _; try (eexists; reflexivity).
  destruct (detail <- get payload "detail" ;; _) as [[]|e] eqn:E; [|eexists; reflexivity].
  destruct (get payload "detail") as [detail|]; cbn [bind] in E; [|discriminate E].
  destruct (ToString _); discriminate E.
Qed.

Lemma on_settled_delivered (payload : value) (p : Page) :
  on_settled (Ok (mkResponse true (Ok payload))) p
  = match render payload (set_lastPayload payload p) with
    | (Ok _, p') =>
        (Ok tt, set_disabled false
                  (set_statusEl ("Готово! Отчёт сохранён в артефактах.", "success") p'))
    | (Throw e, p') => (Ok tt, reported e p')
    end.
Proof.
  unfold on_settled, analyze_try, seq, lift, modify. cbn [ok json ret].
  destruct (render payload (set_lastPayload payload p)) as [[[]|e] p']; reflexivity.
Qed.

Lemma on_settled_lastPayload (outcome : result Response) (p : Page) :
  lastPayload (run (on_settled outcome) p)
  = match delivered outcome with
    | Some payload => payload
    | None => lastPayload p
    end.
Proof.
  destruct (delivered outcome) as [payload|] eqn:D.
  - destruct outcome as [[[] [v|]]|]; try discriminate D.
    injection D as ->. unfold run. rewrite on_settled_delivered.
    destruct (render_keeps payload (set_lastPayload payload p)) as (H & _).
    unfold run in H.
    destruct (render payload (set_lastPayload payload p)) as [[[]|e] p'];
      cbn [snd] in *; destruct p'; exact H.
  - destruct (analyze_try_undelivered outcome p D) as [e H].
    unfold run, on_settled. rewrite H. destruct p; reflexivity.
Qed.

(** X3.  A settled request replaces the held report exactly when its status
    is 2xx and its body parses, whether or not the report then renders;
    every other settlement keeps the report held before. *)
Theorem settlement_holds_report (outcome : result Response) (p : Page) :
  lastPayload (run (on_settled outcome) p)
  = match delivered outcome with
    | Some payload => payload
    | None => lastPayload p
    end.
Proof. apply on_settled_lastPayload. Qed.

(** X4.  A delivered report that renders: the report is held, the page shows
    it with the success status, and the button is enabled. *)
Theorem successful_analysis (payload : value) (p : Page) :
  fst (render payload p) = Ok tt ->
  on_settled (Ok (mkResponse true (Ok payload))) p
  = (Ok tt,
     set_disabled false
       (set_statusEl ("Готово! Отчёт сохранён в артефактах.", "success")
          (run (render payload) (set_lastPayload payload p)))).
Proof.
  intros H. rewrite on_settled_delivered.
  rewrite (render_outcome payload p (set_lastPayload payload p)) in H. unfold run.
  destruct (render payload (set_lastPayload payload p)) as [[[]|e] p'];
    [reflexivity | discriminate H].
Qed.

Lemma successful_analysis_witness :
  let report := Obj [("callId", Str "call-42"); ("lang", Str "ru")] in
  on_settled (Ok (mkResponse true (Ok report))) initial
  = (Ok tt,
     set_disabled false
       (set_statusEl ("Готово! Отчёт сохранён в артефактах.", "success")
          (run (render report) (set_lastPayload report initial)))).
Proof.
  intros report. exact (successful_analysis report initial eq_refl).
Defined.


(** A rejected [fetch] and a 429 with a [detail], from the initial page. *)
Lemma failed_request_examples :
  statusEl (run (on_settled (Throw (TypeError "Failed to fetch"))) initial)
  = ("Failed to fetch", "error") /\
  statusEl (run (on_settled
                   (Ok (mkResponse false (Ok (Obj [("detail", Str "quota exceeded")])))))
                initial)
  = ("quota exceeded", "error").
Proof. split; reflexivity. Qed.

(** X6.  A delivered report that fails to render: the exception is reported
    like a failed request, on the page as the renderers left it; the results
    section is no more visible than before, and the report is held all the
    same. *)
Theorem unrenderable_report (payload : value) (p : Page) (e : Error) :
  fst (render payload p) = Throw e ->
  let p' := run (on_settled (Ok (mkResponse true (Ok payload)))) p in
  p' = reported e (run (render payload) (set_lastPayload payload p)) /\
  results_hidden p' = results_hidden p /\
  lastPayload p' = payload.
Proof.
  intros H p'.
  assert (E : p' = reported e (run (render payload) (set_lastPayload payload p))).
  { unfold p', run. rewrite on_settled_delivered.
    rewrite (render_outcome payload p (set_lastPayload payload p)) in H.
    destruct (render payload (set_lastPayload payload p)) as [[[]|e'] q];
      cbn [fst] in H; [discriminate H|]. now injection H as ->. }
  split; [exact E|]. split.
  - rewrite E. destruct (render_puts payload) as (r & ws & Hp & _ & Hv).
    rewrite Hp in H. cbn [fst] in H. unfold run. rewrite Hp, put_fields.
    cbn. apply (Hv e H).
  - unfold p'. now rewrite on_settled_lastPayload.
Qed.

Lemma unrenderable_report_witness :
  let report := Obj [("callId", Str "call-42"); ("scores", Null)] in
  let p' := run (on_settled (Ok (mkResponse true (Ok report)))) initial in
  results_hidden p' = true /\ lastPayload p' = report.
Proof.
  intros report p'.
  destruct (unrenderable_report report initial
              (TypeError "Cannot read properties of null (reading 'empathy')") eq_refl)
    as (_ & H1 & H2).
  split; [exact H1 | exact H2].
Defined.

End Settlements.

Section Renderers.
Import JS AnalyzeForm Behaviour.

(** X7.  [fmtPercent] writes a number below [10 ^ 21] with a sign when it is
    negative, an integer part, a point and exactly one decimal, followed by
    the percent sign. *)
Theorem fmtPercent_one_decimal (n : number) :
  positional n = true ->
  exists int_ d,
    fmtPercent (Num n)
    = Ok ((if mantissa n <? 0 then "-" else "")
            ++ digits_string int_ ++ "." ++ digits_string [d] ++ "%") /\
    int_ <> [] /\ Forall Grammar.digit (int_ ++ [d]).
Proof.
  intros Hpos. unfold fmtPercent, or_else. cbn [ToBoolean].
  destruct (Z.eqb_spec (mantissa n) 0) as [E|E]; cbn [negb ToNumber bind].
  - exists [0], 0. rewrite E. split; [reflexivity|]. split; [discriminate|].
    repeat constructor; unfold Grammar.digit; lia.
  - destruct (toFixed_decimals n 1 Hpos) as (int_ & frac & -> & Hne & Hlen & Hd & _);
      [lia|].
    destruct frac as [|d [|]]; try discriminate Hlen.
    exists int_, d. split; [|split; assumption].
    now rewrite <- !string_app_assoc.
Qed.

Lemma fmtPercent_one_decimal_witness :
  exists int_ d,
    fmtPercent (Num (mkNumber 1234 (-2)))
    = Ok (digits_string int_ ++ "." ++ digits_string [d] ++ "%") /\
    int_ <> [] /\ Forall Grammar.digit (int_ ++ [d]).
Proof.
  exact (fmtPercent_one_decimal (mkNumber 1234 (-2)) eq_refl).
Defined.

(** X8.  [renderOperational] on a metrics object whose four fields are
    absent, [null], zero or empty shows the six metrics with their defaults,
    and so it does when it is given no metrics object at all. *)
Theorem renderOperational_defaults (props : list (string * value)) (p : Page) :
  ToBoolean (lookup "silencePct" props) = false ->
  ToBoolean (lookup "overlapPct" props) = false ->
  ToBoolean (lookup "speechRateWpm" props) = false ->
  ToBoolean (lookup "interruptions" props) = false ->
  renderOperational (Obj props) p = renderOperational Undefined p /\
  renderOperational Undefined p
  = (Ok tt,
     set_children operationalEl
       (metric "Тишина" "0.0%" ++ metric "Перекрытия" "0.0%"
        ++ metric "Темп речи (менеджер)" "0 wpm" ++ metric "Темп речи (клиент)" "0 wpm"
        ++ metric "Перебивания менеджера" "0" ++ metric "Перебивания клиента" "0")%list
       p).
Proof.
  intros H1 H2 H3 H4. split; [|destruct p; reflexivity].
  unfold renderOperational, operational_items, fmtPercent, or_else.
  cbn [default_param get bind]. now rewrite H1, H2, H3, H4.
Qed.

Lemma renderOperational_defaults_witness :
  renderOperational (Obj [("silencePct", Num zero); ("speechRateWpm", Null)]) initial
  = renderOperational Undefined initial.
Proof.
  destruct (renderOperational_defaults
              [("silencePct", Num zero); ("speechRateWpm", Null)] initial
              eq_refl eq_refl eq_refl eq_refl) as [H _].
  exact H.
Defined.

(** X9.  [renderScores] on a scores object whose three scores are absent,
    [null] or zero shows three rows with an empty bar and the text [0.00],
    and so it does when it is given no scores object at all. *)
Theorem renderScores_defaults (props : list (string * value)) (p : Page) :
  lookup "empathy" props ?? Num zero = Num zero ->
  lookup "compliance" props ?? Num zero = Num zero ->
  lookup "structure" props ?? Num zero = Num zero ->
  renderScores (Obj props) p = renderScores Undefined p /\
  renderScores Undefined p
  = (Ok tt,
     set_children scoreCardEl
       [ zero_score_row "Эмпатия"; zero_score_row "Комплаенс";
         zero_score_row "Структура" ] p).
Proof.
  intros H1 H2 H3. split; [|destruct p; reflexivity].
  assert (R : forall label v,
             v ?? Num zero = Num zero ->
             AnalyzeForm.score_row label v = Ok (zero_score_row label)).
  { intros label v H. destruct v; try discriminate H; try reflexivity.
    cbn [nullish] in H. injection H as ->. reflexivity. }
  unfold renderScores, seq, lift, for_each. cbn [default_param get bind].
  now rewrite !R by assumption.
Qed.

Lemma renderScores_defaults_witness :
  renderScores (Obj [("empathy", Null); ("structure", Num zero)]) initial
  = renderScores Undefined initial.
Proof.
  destruct (renderScores_defaults [("empathy", Null); ("structure", Num zero)] initial
              eq_refl eq_refl eq_refl) as [H _].
  exact H.
Defined.

(** X10.  A default parameter stands in for an absent section only: a report
    in which one of the five sections is [null] makes [render] throw. *)
Theorem null_section_fails_render (props : list (string * value)) (key : string)
    (p : Page) :
  In key section_keys ->
  lookup key props = Null ->
  exists e, fst (render (Obj props) p) = Throw e.
Proof.
  intros Hin Hnull. unfold render, seq, lift. cbn [get].
  destruct (renderSummary (Obj props) p) as [[[]|?] p1]; [|eexists; reflexivity].
  destruct Hin as [<-|Hin]; [rewrite Hnull; eexists; reflexivity|].
  destruct (renderScores (lookup "scores" props) p1) as [[[]|?] p2];
    [|eexists; reflexivity].
  destruct Hin as [<-|Hin]; [rewrite Hnull; eexists; reflexivity|].
  destruct (renderOperational (lookup "operational" props) p2) as [[[]|?] p3];
    [|eexists; reflexivity].
  destruct Hin as [<-|Hin]; [rewrite Hnull; eexists; reflexivity|].
  destruct (renderChecklist (lookup "checklist" props) p3) as [[[]|?] p4];
    [|eexists; reflexivity].
  destruct Hin as [<-|Hin]; [rewrite Hnull; eexists; reflexivity|].
  destruct (renderHighlights (lookup "highlights" props) p4) as [[[]|?] p5];
    [|eexists; reflexivity].
  destruct Hin as [<-|[]]. rewrite Hnull. eexists; reflexivity.
Qed.

Lemma null_section_fails_render_witness :
  exists e,
    fst (render (Obj [("callId", Str "call-42"); ("checklist", Null)]) initial) = Throw e.
Proof.
  apply (null_section_fails_render _ "checklist"); [cbn; tauto | reflexivity].
Defined.

Lemma nonempty_append (s t : string) : is_empty t = false -> is_empty (s ++ t) = false.
Proof. destruct s; [trivial | reflexivity]. Qed.

(** X11.  A checklist card has a title, a status and a reason, and a fourth
    line for the evidence exactly when the item has a (truthy) [evidence]. *)
Theorem checklist_card_lines (props : list (string * value)) (card : Node) :
  checklist_card (Obj props) = Ok card ->
  exists title reason evidence,
    childNodes card
    = ([ mkNode "div" "card__title" title [] [];
         mkNode "div" "card__meta"
                (if ToBoolean (lookup "passed" props) then "Выполнено"
                 else "Нужно внимание") [] [];
         mkNode "p" "" reason [] [] ]
       ++ (if ToBoolean (lookup "evidence" props)
           then [mkNode "p" "card__meta" evidence [] []] else []))%list.
Proof.
  unfold checklist_card. cbn [get bind].
  destruct (template _) as [title|]; [|discriminate]. cbn [bind].
  destruct (ToString _) as [reason|]; [|discriminate]. cbn [bind].
  destruct (ToBoolean (lookup "evidence" props)).
  - cbn [bind template].
    destruct (ToString (lookup "ts" props ||| Str "")) as [ts|]; [|discriminate].
    destruct (ToString (lookup "evidence" props)) as [ev|]; [|discriminate].
    cbn [bind]. rewrite nonempty_append by reflexivity.
    intros H. injection H as <-. exists title, reason. eexists. reflexivity.
  - cbn [bind is_empty]. intros H. injection H as <-.
    exists title, reason, "". reflexivity.
Qed.

Lemma checklist_card_lines_witness :
  exists card title reason evidence,
    checklist_card (Obj [("id", Str "greeting"); ("passed", Bool true);
                         ("evidence", Str "hello"); ("ts", Str "00:03")]) = Ok card /\
    childNodes card
    = [ mkNode "div" "card__title" title [] [];
        mkNode "div" "card__meta" "Выполнено" [] [];
        mkNode "p" "" reason [] [];
        mkNode "p" "card__meta" evidence [] [] ].
Proof.
  eexists.
  destruct (checklist_card_lines
              [("id", Str "greeting"); ("passed", Bool true);
               ("evidence", Str "hello"); ("ts", Str "00:03")] _ eq_refl)
    as (title & reason & evidence & H).
  exists title, reason, evidence. split; [reflexivity | exact H].
Defined.

End Renderers.

Section Traces.
Import JS AnalyzeForm Behaviour.

Lemma step_requests (ev : Event) (p : Page) :
  Forall analyze_request (requests p) -> Forall analyze_request (requests (step ev p)).
Proof.
  intros H. destruct ev as [files checked|outcome| |]; cbn [step].
  - destruct (submitBtn_disabled p); [exact H|].
    destruct files as [|file rest]; [exact H|].
    destruct (Z.leb_spec (size file) (100 * 1024 * 1024)) as [Hle|Hgt].
    + destruct (on_submit_accepts file rest checked p Hle) as (_ & _ & ->).
      apply Forall_app. split; [exact H|]. constructor; [|constructor].
      split; [reflexivity|]. split; [reflexivity|]. cbn [body]. split.
      * exists file. split; [destruct checked; reflexivity | exact Hle].
      * destruct checked; [right | left]; reflexivity.
    + unfold run, on_submit, file_limit. apply Z.ltb_lt in Hgt. now rewrite Hgt.
  - destruct (awaiting p) as [|n]; [exact H|].
    now destruct (on_settled_enables outcome (set_network n (requests p) p))
      as (_ & _ & _ & ->).
  - unfold run. now destruct (frame_downloadJson p) as (_ & -> & _).
  - unfold run. now destruct (frame_openHtml p) as (_ & -> & _).
Qed.

(** X12.  Whatever the user does and however requests settle, every request
    the [submit] listener has issued is a POST to the analyze endpoint that
    carries one audio file of at most 100 MiB and, for consent, the value
    ["true"] or no field at all. *)
Theorem every_request_is_checked (evs : list Event) :
  Forall analyze_request (requests (steps evs initial)).
Proof.
  assert (H : forall p, Forall analyze_request (requests p) ->
                        Forall analyze_request (requests (steps evs p))).
  { induction evs as [|ev evs IH]; intros p Hp; [exact Hp|].
    apply IH, step_requests, Hp. }
  apply H. constructor.
Qed.

Lemma on_submit_lastPayload (files : list File) (checked : bool) (p : Page) :
  lastPayload (run (on_submit files checked) p) = lastPayload p.
Proof.
  unfold run, on_submit. destruct files as [|file rest]; [reflexivity|].
  now destruct (file_limit <? size file).
Qed.

Lemma downloadJson_lastPayload (p : Page) :
  lastPayload (run downloadJson p) = lastPayload p.
Proof.
  unfold run, downloadJson.
  destruct (negb (ToBoolean (lastPayload p))); [reflexivity|].
  unfold seq, lift. now destruct (callId <- _ ;; _).
Qed.

Lemma openHtml_lastPayload (p : Page) : lastPayload (run openHtml p) = lastPayload p.
Proof.
  unfold run, openHtml, seq, lift.
  destruct (get_opt (lastPayload p) "reportHtml") as [h|]; [|reflexivity].
  destruct (negb (ToBoolean h)); [reflexivity|]. now destruct (ToString h).
Qed.

Lemma step_lastPayload (ev : Event) (p : Page) :
  lastPayload (step ev p) = lastPayload p \/
  exists outcome, ev = Settled outcome /\ delivered outcome = Some (lastPayload (step ev p)).
Proof.
  destruct ev as [files checked|outcome| |]; cbn [step].
  - left. destruct (submitBtn_disabled p); [reflexivity | apply on_submit_lastPayload].
  - destruct (awaiting p) as [|n]; [now left|].
    rewrite on_settled_lastPayload.
    destruct (delivered outcome) as [payload|] eqn:D.
    + right. now exists outcome.
    + left. reflexivity.
  - left. apply downloadJson_lastPayload.
  - left. apply openHtml_lastPayload.
Qed.

(** Where the held report comes from. *)
Lemma lastPayload_origin (evs done : list Event) (p : Page) :
  (lastPayload p = Null \/
   exists outcome, In (Settled outcome) done /\
                   delivered outcome = Some (lastPayload p)) ->
  lastPayload (steps evs p) = Null \/
  exists outcome, In (Settled outcome) (done ++ evs) /\
                  delivered outcome = Some (lastPayload (steps evs p)).
Proof.
  revert done p. induction evs as [|ev evs IH]; intros done p Hp.
  - now rewrite app_nil_r.
  - replace (done ++ ev :: evs)%list with ((done ++ [ev]) ++ evs)%list
      by now rewrite <- app_assoc.
    apply IH.
    destruct (step_lastPayload ev p) as [E|(outcome & -> & D)].
    + rewrite E. destruct Hp as [Hp|(outcome & Hin & D)]; [now left|].
      right. exists outcome. split; [|exact D]. apply in_or_app. now left.
    + right. exists outcome. split; [|exact D]. apply in_or_app. right. now left.
Qed.

(** X13.  On every page reached from the initial one, the held report is
    [null] or the body of a 2xx response that settled earlier: nothing else
    ever becomes the held report. *)
Theorem held_report_origin (evs : list Event) :
  let p := steps evs initial in
  lastPayload p = Null \/
  exists outcome, In (Settled outcome) evs /\ delivered outcome = Some (lastPayload p).
Proof. apply (lastPayload_origin evs [] initial). now left. Qed.

(** X14.  Until a response with status 2xx and a body that parses has
    settled, both export buttons refuse: each shows its error status and
    nothing is downloaded or opened. *)
Theorem exports_need_a_report (evs : list Event) :
  (forall outcome, In (Settled outcome) evs -> delivered outcome = None) ->
  let p := steps evs initial in
  downloadJson p = (Ok tt, set_statusEl ("Сначала выполните анализ", "error") p) /\
  openHtml p = (Ok tt, set_statusEl ("Нет HTML отчёта", "error") p).
Proof.
  intros Hnone p.
  assert (E : lastPayload p = Null).
  { destruct (lastPayload_origin evs [] initial) as [E|(outcome & Hin & D)];
      [now left | exact E |].
    rewrite (Hnone outcome Hin) in D. discriminate D. }
  unfold downloadJson, openHtml, seq, lift. rewrite E. split; reflexivity.
Qed.

Lemma exports_need_a_report_witness :
  let p := steps [ Submit [mkFile "call.wav" 4096] true;
                   Settled (Ok (mkResponse false (Ok (Obj [("detail", Str "quota exceeded")]))));
                   ClickDownload ] initial in
  downloadJson p = (Ok tt, set_statusEl ("Сначала выполните анализ", "error") p) /\
  openHtml p = (Ok tt, set_statusEl ("Нет HTML отчёта", "error") p).
Proof.
  apply exports_need_a_report.
  intros outcome [H|[H|[H|[]]]]; try discriminate H. now injection H as <-.
Defined.

Lemma on_settled_windows (outcome : result Response) (p : Page) :
  windows (run (on_settled outcome) p) = windows p.
Proof.
  destruct (delivered outcome) as [payload|] eqn:D.
  - destruct outcome as [[[] [v|]]|]; try discriminate D.
    injection D as ->. unfold run. rewrite on_settled_delivered.
    destruct (render_keeps payload (set_lastPayload payload p)) as (_ & _ & _ & H & _).
    unfold run in H.
    destruct (render payload (set_lastPayload payload p)) as [[[]|e] p'];
      cbn [snd] in *; destruct p'; exact H.
  - destruct (analyze_try_undelivered outcome p D) as [e H].
    unfold run, on_settled. rewrite H. destruct p; reflexivity.
Qed.

(** X15.  Once a report with a non-empty [reportHtml] string has been
    delivered, whether or not it rendered, the [open-html] button opens
    that string, as it is, as an HTML document, and changes nothing
    else. *)
Theorem document_export_after_delivery (props : list (string * value)) (html : string)
    (p : Page) :
  lookup "reportHtml" props = Str html ->
  html <> "" ->
  let p' := run (on_settled (Ok (mkResponse true (Ok (Obj props))))) p in
  windows p' = windows p /\
  openHtml p'
  = (Ok tt, set_outputs (downloads p') (windows p' ++ [mkBlob html "text/html"])%list
                        (console p') p').
Proof.
  intros H Hne p'. split; [apply on_settled_windows|].
  assert (E : lastPayload p' = Obj props) by (unfold p'; now rewrite on_settled_lastPayload).
  unfold openHtml, seq, lift. rewrite E. cbn [get_opt get]. rewrite H.
  destruct html; [congruence | reflexivity].
Qed.

Lemma document_export_after_delivery_witness :
  let report :=
    [ ("callId", Str "call-42"); ("reportHtml", Str "<h1>call-42</h1>");
      ("transcript", Arr [Obj [("speaker", Str "manager")]]) ] in
  let p' := run (on_settled (Ok (mkResponse true (Ok (Obj report))))) initial in
  fst (render (Obj report) initial)
  = Throw (TypeError "Cannot read properties of undefined (reading 'toFixed')") /\
  windows (run openHtml p') = [mkBlob "<h1>call-42</h1>" "text/html"].
Proof.
  intros report p'. split; [reflexivity|].
  destruct (document_export_after_delivery report "<h1>call-42</h1>" initial eq_refl)
    as [_ H]; [discriminate|].
  unfold run at 1. unfold p'. rewrite H. reflexivity.
Defined.

End Traces.

Section EscapedText.
Import JS UploadForm Behaviour.

Lemma replace_app (c : ascii) (by_ s t : string) :
  replace c by_ (s ++ t) = replace c by_ s ++ replace c by_ t.
Proof.
  induction s as [|a s IH]; cbn [append replace]; [reflexivity|].
  rewrite IH. destruct (Ascii.eqb a c); [now rewrite string_app_assoc | reflexivity].
Qed.

Lemma escape_text_app (s t : string) :
  escape_text (s ++ t) = escape_text s ++ escape_text t.
Proof. unfold escape_text. now rewrite !replace_app. Qed.

Lemma escape_text_char (a : ascii) : escape_text (String a "") = entity a.
Proof. destruct a as [[] [] [] [] [] [] [] []]; reflexivity. Qed.

(** The five replacements, one after the other, amount to one pass. *)
Lemma escape_text_each (s : string) : escape_text s = escape_each s.
Proof.
  induction s as [|a s IH]; [reflexivity|].
  change (String a s) with (String a "" ++ s).
  rewrite escape_text_app, escape_text_char, IH. reflexivity.
Qed.

(** What [entity] makes of a character: one of the five entities, or the
    character itself, which then is not [&]. *)
Lemma entity_cases (a : ascii) :
  (a = amp /\ entity a = "&amp;") \/ (a = lt /\ entity a = "&lt;") \/
  (a = gt /\ entity a = "&gt;") \/ (a = dquote /\ entity a = "&quot;") \/
  (a = apos /\ entity a = "&#039;") \/
  (entity a = String a "" /\ a <> amp /\ Ascii.eqb a amp = false /\
   Ascii.eqb a lt = false /\ Ascii.eqb a gt = false /\ Ascii.eqb a dquote = false /\
   Ascii.eqb a apos = false).
Proof.
  destruct a as [[] [] [] [] [] [] [] []];
    first [ left; split; reflexivity
          | right; left; split; reflexivity
          | right; right; left; split; reflexivity
          | right; right; right; left; split; reflexivity
          | right; right; right; right; left; split; reflexivity
          | right; right; right; right; right;
            split; [reflexivity|]; split; [discriminate|]; repeat split ].
Qed.

(** No entity is the beginning of another text of entities but its own. *)
Lemma entity_prefix (a b : ascii) (x y : string) :
  entity a ++ x = entity b ++ y -> a = b /\ x = y.
Proof.
  destruct (entity_cases a) as [[-> ->]|[[-> ->]|[[-> ->]|[[-> ->]|[[-> ->]|(-> & Ha & _)]]]]];
    destruct (entity_cases b) as [[-> ->]|[[-> ->]|[[-> ->]|[[-> ->]|[[-> ->]|(-> & Hb & _)]]]]];
    cbn [append]; intros H; try discriminate H;
    try (injection H as H; split; [reflexivity | exact H]).
  - injection H as H _. now subst b.
  - injection H as H _. now subst b.
  - injection H as H _. now subst b.
  - injection H as H _. now subst b.
  - injection H as H _. now subst b.
  - injection H as H _. now subst a.
  - injection H as H _. now subst a.
  - injection H as H _. now subst a.
  - injection H as H _. now subst a.
  - injection H as H _. now subst a.
  - injection H as -> ->. now split.
Qed.

Lemma entity_shown (a : ascii) : exists c r, entity a = String c r.
Proof.
  destruct (entity_cases a) as [[_ ->]|[[_ ->]|[[_ ->]|[[_ ->]|[[_ ->]|(-> & _)]]]]];
    eexists _, _; reflexivity.
Qed.

Lemma escape_each_injective (s t : string) : escape_each s = escape_each t -> s = t.
Proof.
  revert t. induction s as [|a s IH]; intros [|b t]; cbn [escape_each]; intros H.
  - reflexivity.
  - destruct (entity_shown b) as (c & r & E). rewrite E in H. discriminate H.
  - destruct (entity_shown a) as (c & r & E). rewrite E in H. discriminate H.
  - apply entity_prefix in H as [-> H]. now rewrite (IH t H).
Qed.

Lemma entity_length (a : ascii) :
  (1 <= String.length (entity a))%nat /\
  (String.length (entity a) = 1%nat -> entity a = String a "").
Proof.
  destruct (entity_cases a) as [[_ ->]|[[_ ->]|[[_ ->]|[[_ ->]|[[_ ->]|(-> & _)]]]]];
    cbn; split; try lia; try discriminate; reflexivity.
Qed.

Lemma escape_each_length (s : string) :
  (String.length s <= String.length (escape_each s))%nat.
Proof.
  induction s as [|a s IH]; cbn [escape_each String.length]; [lia|].
  rewrite length_append. destruct (entity_length a) as [H _]. lia.
Qed.

Lemma clean_cons (a : ascii) (s : string) :
  clean (String a s) = true <-> entity a = String a "" /\ clean s = true.
Proof.
  unfold clean. cbn [occurs].
  destruct (entity_cases a)
    as [[-> ->]|[[-> ->]|[[-> ->]|[[-> ->]|[[-> ->]|(-> & _ & E1 & E2 & E3 & E4 & E5)]]]]].
  1-5: split; [cbn; rewrite ?orb_true_r; cbn; discriminate | intros [H _]; discriminate H].
  rewrite E1, E2, E3, E4, E5. cbn [orb]. tauto.
Qed.

Lemma escape_each_clean (s : string) : escape_each s = s <-> clean s = true.
Proof.
  induction s as [|a s IH]; [split; reflexivity|].
  rewrite clean_cons. cbn [escape_each]. split.
  - intros H.
    assert (L : String.length (entity a ++ escape_each s) = S (String.length s))
      by now rewrite H.
    rewrite length_append in L.
    pose proof (escape_each_length s) as Hs. destruct (entity_length a) as [H1 H2].
    assert (E : entity a = String a "") by (apply H2; lia).
    split; [exact E|]. apply IH. rewrite E in H. now injection H.
  - intros [E Hs]. rewrite E. apply IH in Hs. now rewrite Hs.
Qed.

Lemma entity_markup_free (a : ascii) :
  occurs lt (entity a) = false /\ occurs gt (entity a) = false /\
  occurs dquote (entity a) = false /\ occurs apos (entity a) = false.
Proof.
  destruct (entity_cases a)
    as [[_ ->]|[[_ ->]|[[_ ->]|[[_ ->]|[[_ ->]|(-> & _ & _ & E2 & E3 & E4 & E5)]]]]];
    cbn [occurs]; rewrite ?E2, ?E3, ?E4, ?E5; repeat split; reflexivity.
Qed.

Lemma escape_each_markup_free (s : string) :
  occurs lt (escape_each s) = false /\ occurs gt (escape_each s) = false /\
  occurs dquote (escape_each s) = false /\ occurs apos (escape_each s) = false.
Proof.
  induction s as [|a s (I1 & I2 & I3 & I4)]; [now repeat split|].
  cbn [escape_each]. rewrite !occurs_append.
  destruct (entity_markup_free a) as (-> & -> & -> & ->).
  rewrite I1, I2, I3, I4. now repeat split.
Qed.

(** X16.  [escapeHtml] escapes in one pass: although it makes five
    replacements one after the other, no replacement touches the text an
    earlier one put in, and the result is the text with each of the five
    characters replaced by its entity. *)
Theorem escapeHtml_is_one_pass (s : string) :
  escapeHtml (Str s) = Ok (escape_each s).
Proof. unfold escapeHtml. cbn [ToString bind]. now rewrite escape_text_each. Qed.

(** X17.  The text [escapeHtml] returns contains none of [<], [>], the
    double quote and the apostrophe, whatever value it is given. *)
Theorem escapeHtml_leaves_no_markup (v : value) (s : string) :
  escapeHtml v = Ok s ->
  occurs lt s = false /\ occurs gt s = false /\
  occurs dquote s = false /\ occurs apos s = false.
Proof.
  unfold escapeHtml. destruct (ToString v) as [t|]; cbn [bind]; [|discriminate].
  intros H. injection H as <-. rewrite escape_text_each. apply escape_each_markup_free.
Qed.

Lemma escapeHtml_leaves_no_markup_witness :
  exists s,
    escapeHtml (Str "<a href='x'>Q&A</a>") = Ok s /\
    occurs lt s = false /\ occurs gt s = false /\
    occurs dquote s = false /\ occurs apos s = false.
Proof.
  eexists. split; [reflexivity|].
  apply (escapeHtml_leaves_no_markup (Str "<a href='x'>Q&A</a>")). reflexivity.
Defined.

(** X18.  [escapeHtml] returns a text unchanged exactly when the text has
    none of the five characters; in particular escaping an escaped text
    again changes it as soon as anything was escaped. *)
Theorem escapeHtml_fixes_clean_text (s : string) :
  escapeHtml (Str s) = Ok s <-> clean s = true.
Proof.
  rewrite <- escape_each_clean. unfold escapeHtml. cbn [ToString bind].
  rewrite escape_text_each. split; [now intros [= ->] | now intros ->].
Qed.

(** X19.  [escapeHtml] loses nothing: two texts with the same escaped form
    are the same text. *)
Theorem escapeHtml_is_injective (s t : string) :
  escapeHtml (Str s) = escapeHtml (Str t) -> s = t.
Proof.
  unfold escapeHtml. cbn [ToString bind]. rewrite !escape_text_each.
  intros [= H]. now apply escape_each_injective.
Qed.

Lemma escapeHtml_is_injective_witness : "Q&A" = "Q&A".
Proof.
  apply (escapeHtml_is_injective "Q&A" "Q&A"). reflexivity.
Defined.

End EscapedText.

Section Markup.
Import JS UploadForm Behaviour.

(** X20.  An artifact link takes its address from [url], or from [path]
    when [url] is absent or empty; it writes it into the [href] attribute
    with the five characters escaped.  No link is written when neither
    gives an address, nor for an artifact that is absent. *)
Theorem renderArtifactLink_href (label : string) (props : list (string * value))
    (address : string) :
  lookup "url" props ||| lookup "path" props = Str address ->
  renderArtifactLink label (Obj props)
  = Ok (if is_empty address then ""
        else cat [ "<a href="; dq; escape_each address; dq; " target="; dq; "_blank"; dq;
                   " rel="; dq; "noopener"; dq; ">"; escape_each label; "</a>" ]) /\
  renderArtifactLink label Undefined = Ok "".
Proof.
  intros H. split; [|reflexivity].
  unfold renderArtifactLink. cbn [ToBoolean negb get bind]. rewrite H.
  destruct address as [|a address]; [reflexivity|].
  cbn [ToBoolean String.eqb negb is_empty].
  unfold escapeAttribute, escapeHtml. cbn [ToString bind].
  rewrite replace_absent by apply escape_text_no_dquote.
  now rewrite !escape_text_each.
Qed.

Lemma renderArtifactLink_href_witness :
  renderArtifactLink "JSON" (Obj [("url", Str ""); ("path", Str "out/a&b.json")])
  = Ok (cat [ "<a href="; dq; "out/a&amp;b.json"; dq; " target="; dq; "_blank"; dq;
              " rel="; dq; "noopener"; dq; ">"; "JSON"; "</a>" ]).
Proof.
  destruct (renderArtifactLink_href "JSON"
              [("url", Str ""); ("path", Str "out/a&b.json")] "out/a&b.json" eq_refl)
    as [H _].
  exact H.
Defined.

Lemma call_map_rows {A} (f : value -> result A) (items : list value) (rows : list A) :
  Forall2 (fun item row => f item = Ok row) items rows ->
  call_map (Arr items) f = Ok rows.
Proof.
  unfold call_map. induction 1 as [|item row items rows Hrow _ IH]; [reflexivity|].
  rewrite Hrow. cbn [bind]. now rewrite IH.
Qed.

Lemma cell_plain (props : list (string * value)) (k : string) :
  Shows.plain (lookup k props) = true -> exists text, cell (Obj props) k = Ok text.
Proof.
  intros H. unfold cell, escapeHtml. cbn [get bind].
  destruct (ToString_plain (lookup k props ?? Str "")) as [s ->];
    [now apply plain_nullish|].
  eexists. reflexivity.
Qed.

Lemma checklist_row_succeeds (item : value) :
  Shows.record_with ["id"; "reason"; "evidence"; "ts"] item = true ->
  exists text, checklist_row item = Ok text.
Proof.
  destruct item as [| | | | | |props]; try discriminate. intros H.
  cbn [Shows.record_with forallb] in H.
  apply andb_prop in H as [H1 H]. apply andb_prop in H as [H2 H].
  apply andb_prop in H as [H3 H]. apply andb_prop in H as [H4 _].
  unfold checklist_row.
  destruct (cell_plain props "id" H1) as [? ->].
  destruct (cell_plain props "reason" H2) as [? ->].
  destruct (cell_plain props "evidence" H3) as [? ->].
  destruct (cell_plain props "ts" H4) as [? ->].
  eexists. reflexivity.
Qed.

Lemma highlight_item_succeeds (item : value) :
  Shows.record_with ["type"; "quote"; "ts"] item = true ->
  exists text, highlight_item item = Ok text.
Proof.
  destruct item as [| | | | | |props]; try discriminate. intros H.
  cbn [Shows.record_with forallb] in H.
  apply andb_prop in H as [H1 H]. apply andb_prop in H as [H2 H].
  apply andb_prop in H as [H3 _].
  unfold highlight_item.
  destruct (cell_plain props "type" H1) as [? ->].
  destruct (cell_plain props "quote" H2) as [? ->].
  destruct (cell_plain props "ts" H3) as [? ->].
  eexists. reflexivity.
Qed.

Lemma upload_transcript_row_succeeds (item : value) :
  Shows.record_with ["ts"; "speaker"; "text"] item = true ->
  exists text, UploadForm.transcript_row item = Ok text.
Proof.
  destruct item as [| | | | | |props]; try discriminate. intros H.
  cbn [Shows.record_with forallb] in H.
  apply andb_prop in H as [H1 H]. apply andb_prop in H as [H2 H].
  apply andb_prop in H as [H3 _].
  unfold UploadForm.transcript_row.
  destruct (cell_plain props "ts" H1) as [? ->].
  destruct (cell_plain props "speaker" H2) as [? ->].
  destruct (cell_plain props "text" H3) as [? ->].
  eexists. reflexivity.
Qed.

Lemma rows_exist (row : value -> result string) (well_formed : value -> bool) :
  (forall item, well_formed item = true -> exists text, row item = Ok text) ->
  forall items,
    forallb well_formed items = true ->
    exists rows, Forall2 (fun item text => row item = Ok text) items rows.
Proof.
  intros Hrow. induction items as [|item items IH]; cbn [forallb]; intros H.
  - exists []. constructor.
  - apply andb_prop in H as [Hi Hr].
    destruct (Hrow item Hi) as [text Ht]. destruct (IH Hr) as [rows Hrs].
    exists (text :: rows). now constructor.
Qed.

(** X21.  The three list renderers of [app.js] write their note alone for an
    empty list and otherwise one row per item, in the order of the list,
    inside their table or list; an item may lack any of its fields, and the
    transcript rows need no times. *)
Theorem upload_list_sections :
  table_section UploadForm.renderChecklist "Нет пунктов чек-листа" checklist_row
    (fun rows =>
       cat [ nl 4; "<div class="; dq; "table-wrapper"; dq; ">";
             nl 6; "<table class="; dq; "table"; dq; ">";
             nl 8; "<thead><tr><th>ID</th><th>Статус</th><th>Комментарий</th><th>Цитата</th><th>TS</th></tr></thead>";
             nl 8; "<tbody>"; rows; "</tbody>";
             nl 6; "</table>";
             nl 4; "</div>"; nl 2 ])
    (Shows.record_with ["id"; "reason"; "evidence"; "ts"]) /\
  table_section UploadForm.renderHighlights "Нет хайлайтов" highlight_item
    (fun items =>
       cat [ nl 4; "<ul class="; dq; "list"; dq; ">";
             nl 6; items;
             nl 4; "</ul>"; nl 2 ])
    (Shows.record_with ["type"; "quote"; "ts"]) /\
  table_section UploadForm.renderTranscript "Нет расшифровки" UploadForm.transcript_row
    (fun rows =>
       cat [ nl 4; "<div class="; dq; "table-wrapper"; dq; ">";
             nl 6; "<table class="; dq; "table"; dq; ">";
             nl 8; "<thead><tr><th>Таймкод</th><th>Роль</th><th>Текст</th></tr></thead>";
             nl 8; "<tbody>"; rows; "</tbody>";
             nl 6; "</table>";
             nl 4; "</div>"; nl 2 ])
    (Shows.record_with ["ts"; "speaker"; "text"]).
Proof.
  repeat apply conj; try reflexivity.
  - intros items Hne Hwf.
    destruct (rows_exist _ _ checklist_row_succeeds items Hwf) as [rows Hr].
    exists rows. split; [exact Hr|].
    unfold UploadForm.renderChecklist. rewrite no_length_nonempty by assumption.
    cbn [bind]. now rewrite (call_map_rows _ _ _ Hr).
  - intros items Hne Hwf.
    destruct (rows_exist _ _ highlight_item_succeeds items Hwf) as [rows Hr].
    exists rows. split; [exact Hr|].
    unfold UploadForm.renderHighlights. rewrite no_length_nonempty by assumption.
    cbn [bind]. now rewrite (call_map_rows _ _ _ Hr).
  - intros items Hne Hwf.
    destruct (rows_exist _ _ upload_transcript_row_succeeds items Hwf) as [rows Hr].
    exists rows. split; [exact Hr|].
    unfold UploadForm.renderTranscript. rewrite no_length_nonempty by assumption.
    cbn [bind]. now rewrite (call_map_rows _ _ _ Hr).
Qed.

Lemma upload_list_sections_witness :
  exists rows,
    Forall2 (fun item text => UploadForm.transcript_row item = Ok text)
            [Obj [("speaker", Str "manager"); ("text", Str "hello")]] rows /\
    UploadForm.renderTranscript (Arr [Obj [("speaker", Str "manager"); ("text", Str "hello")]])
    = Ok (cat [ nl 4; "<div class="; dq; "table-wrapper"; dq; ">";
                nl 6; "<table class="; dq; "table"; dq; ">";
                nl 8; "<thead><tr><th>Таймкод</th><th>Роль</th><th>Текст</th></tr></thead>";
                nl 8; "<tbody>"; cat rows; "</tbody>";
                nl 6; "</table>";
                nl 4; "</div>"; nl 2 ]).
Proof.
  destruct upload_list_sections as (_ & _ & _ & H).
  apply (H [Obj [("speaker", Str "manager"); ("text", Str "hello")]]);
    [discriminate | reflexivity].
Defined.

End Markup.

Section Uploads.
Import JS UploadForm Behaviour.

(** The [try] block of [app.js] either throws and leaves the page as it
    was, or ends with the result shown and the status [Готово]. *)
Lemma upload_analyze_try (outcome : result Response) (p : Page) :
  (exists e, analyze_try outcome p = (Throw e, p)) \/
  (exists html,
      analyze_try outcome p
      = (Ok tt, mkPage "Готово" false html (awaiting p) (requests p) (console p))).
Proof.
  unfold analyze_try, seq, lift.
  destruct outcome as [[o j]|e]; [|left; eexists; reflexivity].
  cbn [ok json]. destruct o.
  - cbn [ret]. destruct j as [answer|e]; [|left; eexists; reflexivity].
    destruct (destructure_data answer) as [data|e]; [|left; eexists; reflexivity].
    unfold renderResult, seq, lift.
    destruct (result_markup data) as [html|e]; [|left; eexists; reflexivity].
    right. exists html. reflexivity.
  - left.
    destruct (detail <- get _ "detail" ;; _) as [[]|e] eqn:E; [|eexists; reflexivity].
    destruct (get _ "detail") as [detail|]; cbn [bind] in E; [|discriminate E].
    destruct (ToString _); discriminate E.
Qed.

Lemma upload_on_settled (outcome : result Response) (p : Page) :
  (exists e,
      on_settled outcome p
      = (Ok tt, mkPage (message e) (result_hidden p) (result_innerHTML p) (awaiting p)
                       (requests p) (console p ++ [e])%list)) \/
  (exists html,
      on_settled outcome p
      = (Ok tt, mkPage "Готово" false html (awaiting p) (requests p) (console p))).
Proof.
  unfold on_settled.
  destruct (upload_analyze_try outcome p) as [[e ->]|[html ->]].
  - left. exists e. reflexivity.
  - right. exists html. reflexivity.
Qed.

(** X22.  The result area of [app.js]: a submission with a file hides and
    empties it, whatever it showed; a settlement either ends with the status
    [Готово] and a visible result, or leaves the result area exactly as it
    was.  So a failure that follows its own submission shows no result,
    while, as nothing keeps two requests from overlapping, a failure that
    follows the success of another request leaves that result visible under
    the error status. *)
Theorem upload_result_area (q : Page) :
  (forall file rest checked,
      let p := step (Submit (file :: rest) checked) q in
      statusEl p = "Анализируем звонок..." /\
      result_hidden p = true /\ result_innerHTML p = "") /\
  (forall outcome,
      let p := step (Settled outcome) q in
      (statusEl p = "Готово" /\ result_hidden p = false) \/
      (result_hidden p = result_hidden q /\ result_innerHTML p = result_innerHTML q)).
Proof.
  split.
  - intros file rest checked. repeat split.
  - intros outcome. cbn [step]. destruct (awaiting q) as [|n]; [right; now split|].
    unfold run.
    match goal with
    | |- context [on_settled outcome ?p0] =>
        destruct (upload_on_settled outcome p0) as [[e ->]|[html ->]]
    end.
    + right. split; reflexivity.
    + left. split; reflexivity.
Qed.

(** Two overlapping submissions, the first of which succeeds and the second
    of which is refused: the result of the first stays visible under the
    message of the second. *)
Lemma upload_overlapping_requests :
  let file := mkFile "call.wav" 4096 in
  let p := steps [ Submit [file] true; Submit [file] true;
                   Settled (Ok (mkResponse true
                                  (Ok (Obj [("data", Obj [("callId", Str "call-42")])]))));
                   Settled (Ok (mkResponse false
                                  (Ok (Obj [("detail", Str "quota exceeded")])))) ]
                 initial in
  statusEl p = "quota exceeded" /\ result_hidden p = false /\
  is_empty (result_innerHTML p) = false.
Proof. vm_compute. repeat split. Qed.

(** X23.  A response with status 2xx whose body carries the report under
    [data]: the markup of the report becomes the content of the result
    area, which is shown, and the status is [Готово]. *)
Theorem upload_success (props : list (string * value)) (html : string) (p : Page) :
  result_markup (lookup "data" props) = Ok html ->
  on_settled (Ok (mkResponse true (Ok (Obj props)))) p
  = (Ok tt, mkPage "Готово" false html (awaiting p) (requests p) (console p)).
Proof.
  intros H. unfold on_settled, analyze_try, seq, lift, renderResult.
  cbn [ok json ret destructure_data get]. unfold seq, lift. now rewrite H.
Qed.

Lemma upload_success_witness :
  exists html,
    on_settled (Ok (mkResponse true (Ok (Obj [("data", Obj [("callId", Str "call-42")])]))))
               initial
    = (Ok tt, mkPage "Готово" false html 0 [] []).
Proof.
  eexists.
  apply (upload_success [("data", Obj [("callId", Str "call-42")])] _ initial).
  reflexivity.
Defined.

(** X24.  A response with status 2xx whose body has no [data]: the renderer
    throws on the first field it reads, the listener reports the
    [TypeError] as status text and on the console, and the result area is
    left as it was. *)
Theorem upload_response_without_data (props : list (string * value)) (p : Page) :
  lookup "data" props = Undefined ->
  exists e,
    name e = "TypeError" /\
    on_settled (Ok (mkResponse true (Ok (Obj props)))) p
    = (Ok tt, mkPage (message e) (result_hidden p) (result_innerHTML p) (awaiting p)
                     (requests p) (console p ++ [e])%list).
Proof.
  intros H. unfold on_settled, analyze_try, seq, lift, renderResult.
  cbn [ok json ret destructure_data get]. unfold seq, lift. rewrite H.
  exists (cannot_read "undefined" "callId"). split; reflexivity.
Qed.

Lemma upload_response_without_data_witness :
  exists e,
    name e = "TypeError" /\
    on_settled (Ok (mkResponse true (Ok (Obj [("callId", Str "call-42")])))) initial
    = (Ok tt, mkPage (message e) true "" 0 [] [e]).
Proof.
  exact (upload_response_without_data [("callId", Str "call-42")] initial eq_refl).
Defined.

(** X25.  [renderResult] needs none of the nested sections: a report
    without [scores], [artifacts], [operational] and [segments], whose call
    id, language and duration are absent or plain values, renders. *)
Theorem upload_renders_bare_report (props : list (string * value)) :
  Shows.plain (lookup "callId" props) = true ->
  Shows.plain (lookup "language" props) = true ->
  Shows.plain (lookup "durationSec" props) = true ->
  (forall k, In k ["scores"; "artifacts"; "operational"; "segments"] ->
             lookup k props = Undefined) ->
  exists html, result_markup (Obj props) = Ok html.
Proof.
  intros Hc Hl Hd Habsent. unfold result_markup. cbn [get bind].
  rewrite (Habsent "scores"), (Habsent "artifacts"), (Habsent "operational"),
    (Habsent "segments") by (cbn; tauto).
  unfold escapeHtml.
  destruct (ToString_plain _ Hc) as [callId ->].
  destruct (ToString_plain (lookup "language" props ||| Str "-")) as [language ->];
    [now apply plain_or_else|].
  assert (D : exists text, duration_text (lookup "durationSec" props) = Ok text).
  { destruct (lookup "durationSec" props) as [| |[]| | | |]; try discriminate Hd;
      eexists; reflexivity. }
  destruct D as [duration ->]. eexists. reflexivity.
Qed.

Lemma upload_renders_bare_report_witness :
  exists html, result_markup (Obj [("callId", Str "call-42")]) = Ok html.
Proof.
  apply (upload_renders_bare_report [("callId", Str "call-42")]);
    try reflexivity.
  intros k [<-|[<-|[<-|[<-|[]]]]]; reflexivity.
Defined.

Lemma upload_step_requests (ev : Event) (p : Page) :
  List.length (requests (step ev p))
  = (List.length (requests p) + if with_file ev then 1 else 0)%nat.
Proof.
  destruct ev as [[|file rest] checked|outcome]; cbn [step with_file].
  - cbn. lia.
  - cbn. rewrite length_app. reflexivity.
  - destruct (awaiting p) as [|n]; [lia|]. unfold run.
    match goal with
    | |- context [on_settled outcome ?p0] =>
        destruct (upload_on_settled outcome p0) as [[e ->]|[html ->]]
    end; cbn; lia.
Qed.

(** X26.  [app.js] sends every submission that selects a file: on every
    page reached from the initial one, the number of requests issued is the
    number of such submissions, whatever was still pending when they were
    made. *)
Theorem every_submission_is_sent (evs : list Event) :
  List.length (requests (steps evs initial))
  = List.length (filter with_file evs).
Proof.
  assert (H : forall p,
             List.length (requests (steps evs p))
             = (List.length (requests p) + List.length (filter with_file evs))%nat).
  { induction evs as [|ev evs IH]; intros p; [cbn; lia|].
    change (steps (ev :: evs) p) with (steps evs (step ev p)).
    rewrite IH, upload_step_requests. cbn [filter].
    destruct (with_file ev); cbn [List.length]; lia. }
  apply H.
Qed.

End Uploads.
